(** * JavaScriptObfuscator: the staged transformation pipeline

  A shallow embedding of [src/JavaScriptObfuscator.ts].  The class is a
  sequencer: it parses, drives the transformers runner through the
  transformation stages, generates code and hands the result to the
  source-map corrector.  Everything it calls is injected or imported, so
  the embedding is a small state-and-exception monad whose primitive
  operations are the calls that cross the class boundary; each of them is
  also recorded as an event, which is what the theorems observe. *)

From Stdlib Require Import Floats.PrimFloat.
From stdpp Require Import base option list gmap strings.

Set Default Proof Using "Type".

(** ** Enumerations *)

(** [enums/node-transformers/TransformationStage]: the members the class names. *)
Module TransformationStage.
Inductive t :=
| Preparing
| DeadCodeInjection
| ControlFlowFlattening
| Converting
| Obfuscating
| Finalizing.

#[global] Instance eq_dec : EqDecision t.
Proof. solve_decision. Defined.
End TransformationStage.

(** [enums/node-transformers/NodeTransformer]: the members listed in
  [transformersList]. *)
Module NodeTransformer.
Inductive t :=
| BlockStatementControlFlowTransformer
| ClassDeclarationTransformer
| CommentsTransformer
| CustomNodesTransformer
| DeadCodeInjectionTransformer
| EvalCallExpressionTransformer
| FunctionControlFlowTransformer
| CatchClauseTransformer
| FunctionDeclarationTransformer
| FunctionTransformer
| LabeledStatementTransformer
| LiteralTransformer
| MemberExpressionTransformer
| MethodDefinitionTransformer
| ObfuscatingGuardsTransformer
| ObjectExpressionKeysTransformer
| ObjectExpressionTransformer
| ParentificationTransformer
| StringArrayTransformer
| TemplateLiteralTransformer
| VariableDeclarationTransformer.
End NodeTransformer.

(** [enums/logger/LoggingMessage]: the members the class logs. *)
Module LoggingMessage.
Inductive t :=
| EmptySourceCode
| ObfuscationCompleted
| ObfuscationStarted
| RandomGeneratorSeed
| TransformationStage
| Version.

#[global] Instance eq_dec : EqDecision t.
Proof. solve_decision. Defined.
End LoggingMessage.

(** ** Syntax trees *)

(** What the class reads of an ESTree node: its [type] tag, the statements
  of its [body] and the optional [leadingComments] array ([None] is the
  absent property). *)
Module ESTree.
Record Comment := { comment_type : string; value : string }.

#[warnings="-register-all"]
Inductive Node := mkNode {
  type : string;
  body : list Node;
  leadingComments : option (list Comment)
}.

Definition Program := Node.
End ESTree.

Module NodeGuards.
(** Modelled from the spec: [NodeGuards.isProgramNode] lives in
    [node/NodeGuards], outside the sources at hand; the spec describes it as
    "root kind matches program". *)
Definition isProgramNode (node : ESTree.Node) : bool :=
  bool_decide (ESTree.type node = "Program").
End NodeGuards.

(** ** Options and option objects *)

(** [IOptions]: the flags the class consults. *)
Record IOptions := {
  compact : bool;
  controlFlowFlattening : bool;
  deadCodeInjection : bool;
  sourceMap : bool
}.

(** The second argument of [EsprimaFacade.parse]. *)
Record ParseOptions := { attachComment : bool; loc : bool }.

(** Plain JavaScript objects live in a store and are handled by reference,
  so that writing to a property of one object is visible through every
  alias of it and through no other object. *)
Definition ref := positive.

Inductive JsValue :=
| JsBoolean (b : bool)
| JsString (s : string)
| JsObject (r : ref).

#[global] Instance JsValue_eq_dec : EqDecision JsValue.
Proof. solve_decision. Defined.

Abbreviation Properties := (gmap string JsValue).
Abbreviation Heap := (gmap ref Properties).

(** The properties of the object at [r]. *)
Definition deref (h : Heap) (r : ref) : Properties := default ∅ (h !! r).

(** [{ ...source }]: a new object holding a copy of the properties. *)
Definition allocate (props : Properties) (h : Heap) : ref * Heap :=
  let r := fresh (dom h) in (r, <[r := props]> h).

(** [object.key = v]. *)
Definition assign (r : ref) (key : string) (v : JsValue) (h : Heap) : Heap :=
  <[r := <[key := v]> (deref h r)]> h.

(** ** Results *)

(** [IObfuscationResult], as [sourceMapCorrector.correct] assembles it. *)
Record IObfuscationResult := {
  obfuscatedCode : string;
  sourceMapText : string
}.

(** ** The static members *)

(** [JavaScriptObfuscator.escodegenParams] is one object, created when the
    class is loaded and shared by every instance and every run: a fixed
    reference, and the properties it is created with. *)
Definition static_escodegenParams : ref := 1%positive.

Definition escodegenParams_initializer : Properties :=
  {[ "comment" := JsBoolean true;
     "verbatim" := JsString "x-verbatim-property";
     "sourceMapWithCode" := JsBoolean true ]}.

(** The store once the class is loaded. *)
Definition loaded_heap : Heap :=
  {[ static_escodegenParams := escodegenParams_initializer ]}.

Definition transformersList : list NodeTransformer.t :=
  [ NodeTransformer.BlockStatementControlFlowTransformer;
    NodeTransformer.ClassDeclarationTransformer;
    NodeTransformer.CommentsTransformer;
    NodeTransformer.CustomNodesTransformer;
    NodeTransformer.DeadCodeInjectionTransformer;
    NodeTransformer.EvalCallExpressionTransformer;
    NodeTransformer.FunctionControlFlowTransformer;
    NodeTransformer.CatchClauseTransformer;
    NodeTransformer.FunctionDeclarationTransformer;
    NodeTransformer.FunctionTransformer;
    NodeTransformer.LabeledStatementTransformer;
    NodeTransformer.LiteralTransformer;
    NodeTransformer.MemberExpressionTransformer;
    NodeTransformer.MethodDefinitionTransformer;
    NodeTransformer.ObfuscatingGuardsTransformer;
    NodeTransformer.ObjectExpressionKeysTransformer;
    NodeTransformer.ObjectExpressionTransformer;
    NodeTransformer.ParentificationTransformer;
    NodeTransformer.StringArrayTransformer;
    NodeTransformer.TemplateLiteralTransformer;
    NodeTransformer.VariableDeclarationTransformer ].

Declare Scope M_scope.

Section Model.
(** The parameters of the model: the values a collaborator can throw, the
    state the collaborators keep between calls, the state of the logging
    sink, the seed type of the random generator and the class of the
    source-map object [escodegen] returns. *)
Context {Exn World Sink Seed SourceMapGenerator : Type}.

(** How a call ends. *)
Inductive Completion (A : Type) :=
| Normal (a : A)
| Throw (e : Exn).
#[global] Arguments Normal {A} a.
#[global] Arguments Throw {A} e.

(** A call into a collaborator: it may change the collaborators' state and
    may throw. *)
Definition External (A : Type) := World -> Completion A * World.

(** The [map] property of a generator output, at run time: absent, [null],
    the source-map object, or a string. *)
Inductive MapValue :=
| MapUndefined
| MapNull
| MapObject (g : SourceMapGenerator)
| MapString (s : string).

(** [IGeneratorOutput]. *)
Record IGeneratorOutput := { code : string; map : MapValue }.

(** The payload of a log call. *)
Inductive LogValue :=
| LogString (s : string)
| LogSeed (seed : Seed)
| LogNumber (x : float)
| LogStage (stage : TransformationStage.t).

(** *** The injected interfaces *)

(** [ILogger]: a call changes the sink and returns nothing. *)
Record ILogger := {
  info : LoggingMessage.t -> option LogValue -> Sink -> Sink;
  success : LoggingMessage.t -> option LogValue -> Sink -> Sink;
  warn : LoggingMessage.t -> option LogValue -> Sink -> Sink
}.

(** [IRandomGenerator]: the class only reads the seed. *)
Record IRandomGenerator := { getSeed : World -> Seed }.

Record ISourceMapCorrector := {
  correct : string -> MapValue -> External IObfuscationResult
}.

Record ITransformersRunner := {
  transform : ESTree.Program -> list NodeTransformer.t ->
              TransformationStage.t -> External ESTree.Program
}.

(** The fields of a [JavaScriptObfuscator] instance. *)
Record JavaScriptObfuscator := {
  logger : ILogger;
  options : IOptions;
  randomGenerator : IRandomGenerator;
  sourceMapCorrector : ISourceMapCorrector;
  transformersRunner : ITransformersRunner
}.

(** What the module imports: the clock behind [Date.now] (its successive
    samples), the package version, the parser facade, the code generator
    (it is handed a reference to its options and reads the store) and the
    [toString] of a source-map object. *)
Record Imports := {
  Date_now : nat -> float;
  packageJson_version : string;
  EsprimaFacade_parse : string -> ParseOptions -> External ESTree.Program;
  escodegen_generate : ESTree.Program -> ref -> Heap -> External IGeneratorOutput;
  SourceMapGenerator_toString : SourceMapGenerator -> string
}.

(** *** Events *)

(** The calls that leave the class, with what was passed and, where the
    theorems need it, what came back. *)
Inductive Event :=
| EvDateNow (sample : float)
| EvInfo (message : LoggingMessage.t) (value : option LogValue)
| EvSuccess (message : LoggingMessage.t) (value : option LogValue)
| EvWarn (message : LoggingMessage.t) (value : option LogValue)
| EvGetSeed (seed : Seed)
| EvParse (sourceCode : string) (parseOptions : ParseOptions)
    (returned : Completion ESTree.Program)
| EvTransform (astTree : ESTree.Program) (transformers : list NodeTransformer.t)
    (stage : TransformationStage.t) (returned : Completion ESTree.Program)
| EvGenerate (astTree : ESTree.Program) (generateOptions : ref)
    (returned : Completion IGeneratorOutput)
| EvCorrect (generatedCode : string) (generatedMap : MapValue)
    (returned : Completion IObfuscationResult).

(** *** The monad *)

Record State := mkState {
  world : World;    (* the collaborators' own state *)
  sink : Sink;      (* the logging sink *)
  ticks : nat;      (* how many times the clock has been sampled *)
  heap : Heap       (* the option objects *)
}.

(** One execution: how it ended, the state it left and the events it
    emitted, oldest first. *)
#[projections(primitive)]
Record Run (A : Type) := mkRun {
  outcome : Completion A;
  final : State;
  events : list Event
}.
#[global] Arguments mkRun {A} _ _ _.
#[global] Arguments outcome {A} _.
#[global] Arguments final {A} _.
#[global] Arguments events {A} _.

Definition M (A : Type) := State -> Run A.

Definition ret {A} (a : A) : M A := fun s => mkRun (Normal a) s [].

Definition bind {A B} (m : M A) (k : A -> M B) : M B := fun s =>
  let r := m s in
  match outcome r with
  | Normal a =>
      let r' := k a (final r) in
      mkRun (outcome r') (final r') (events r ++ events r')
  | Throw e => mkRun (Throw e) (final r) (events r)
  end.

(** A run, with events put in front of its own. *)
Definition preceded {A} (evs : list Event) (r : Run A) : Run A :=
  mkRun (outcome r) (final r) (evs ++ events r).

Notation "x ← y ; z" := (bind y (fun x => z))
  (at level 20, y at level 100, z at level 200, only parsing) : M_scope.
Notation "x ;; z" := (bind x (fun _ => z))
  (at level 100, z at level 200, only parsing, right associativity) : M_scope.
Local Open Scope M_scope.

(** *** Primitive operations *)

(** A call into a collaborator, recorded with what it returned. *)
Definition external {A} (call : External A) (record : Completion A -> Event) : M A :=
  fun s =>
    let returned := call (world s) in
    mkRun returned.1 (mkState returned.2 (sink s) (ticks s) (heap s))
      [record returned.1].

(** A call of a logger method. *)
Definition logging (method : Sink -> Sink) (record : Event) : M unit :=
  fun s =>
    mkRun (Normal tt) (mkState (world s) (method (sink s)) (ticks s) (heap s)) [record].

(** [Date.now()]. *)
Definition dateNow (imports : Imports) : M float :=
  fun s =>
    let sample := Date_now imports (ticks s) in
    mkRun (Normal sample) (mkState (world s) (sink s) (S (ticks s)) (heap s))
      [EvDateNow sample].

(** [{ ...object }] and [{ key: value }]: a new object with these properties. *)
Definition newObject (props : Properties) : M ref :=
  fun s =>
    let allocated := allocate props (heap s) in
    mkRun (Normal allocated.1) (mkState (world s) (sink s) (ticks s) allocated.2) [].

(** Reading the properties of an object. *)
Definition propertiesOf (r : ref) : M Properties :=
  fun s => mkRun (Normal (deref (heap s) r)) s [].

(** [object.key = value]. *)
Definition setProperty (r : ref) (key : string) (v : JsValue) : M unit :=
  fun s =>
    mkRun (Normal tt) (mkState (world s) (sink s) (ticks s) (assign r key v (heap s))) [].

(** *** The methods of the class *)

Section Methods.
Variable imports : Imports.
Variable this : JavaScriptObfuscator.

Definition logger_info (message : LoggingMessage.t) (value : option LogValue) : M unit :=
  logging (info (logger this) message value) (EvInfo message value).

Definition logger_success (message : LoggingMessage.t) (value : option LogValue) : M unit :=
  logging (success (logger this) message value) (EvSuccess message value).

Definition logger_warn (message : LoggingMessage.t) (value : option LogValue) : M unit :=
  logging (warn (logger this) message value) (EvWarn message value).

Definition randomGenerator_getSeed : M Seed :=
  fun s =>
    let seed := getSeed (randomGenerator this) (world s) in
    mkRun (Normal seed) s [EvGetSeed seed].

(** Lines 137-142. *)
Definition parseCode (sourceCode : string) : M ESTree.Program :=
  let parseOptions :=
    {| attachComment := true; loc := sourceMap (options this) |} in
  external (EsprimaFacade_parse imports sourceCode parseOptions)
    (EvParse sourceCode parseOptions).

(** Lines 219-227. *)
Definition runTransformationStage (astTree : ESTree.Program)
    (transformationStage : TransformationStage.t) : M ESTree.Program :=
  logger_info LoggingMessage.TransformationStage (Some (LogStage transformationStage));;
  external
    (transform (transformersRunner this) astTree transformersList transformationStage)
    (EvTransform astTree transformersList transformationStage).

(** Lines 149-151.  A number is falsy when it is zero; an array, also an
    empty one, is truthy, so [!astTree.leadingComments] holds exactly when
    the property is absent. *)
Definition isEmptyAstTree (astTree : ESTree.Program) : bool :=
  NodeGuards.isProgramNode astTree
  && Nat.eqb (List.length (ESTree.body astTree)) 0
  && negb (bool_decide (is_Some (ESTree.leadingComments astTree))).

(** Lines 148-174. *)
Definition transformAstTree (astTree : ESTree.Program) : M ESTree.Program :=
  if isEmptyAstTree astTree then
    logger_warn LoggingMessage.EmptySourceCode None;;
    ret astTree
  else
    astTree ← runTransformationStage astTree TransformationStage.Preparing;
    astTree ← (if deadCodeInjection (options this)
               then runTransformationStage astTree TransformationStage.DeadCodeInjection
               else ret astTree);
    astTree ← (if controlFlowFlattening (options this)
               then runTransformationStage astTree TransformationStage.ControlFlowFlattening
               else ret astTree);
    astTree ← runTransformationStage astTree TransformationStage.Converting;
    astTree ← runTransformationStage astTree TransformationStage.Obfuscating;
    astTree ← runTransformationStage astTree TransformationStage.Finalizing;
    ret astTree.

(** Line 198: [generatorOutput.map ? generatorOutput.map.toString() : ''].
    [undefined], [null] and the empty string are falsy; a non-empty string is
    its own [toString]. *)
Definition normalizedMap (generatedMap : MapValue) : MapValue :=
  match generatedMap with
  | MapObject g => MapString (SourceMapGenerator_toString imports g)
  | MapString (String _ _ as s) => MapString s
  | MapString EmptyString | MapNull | MapUndefined => MapString ""
  end.

(** Lines 181-201.  The object literal of the call is built left to right:
    the copy of the local [escodegenParams], then the [format] object. *)
Definition generateCode (sourceCode : string) (astTree : ESTree.Program)
    : M IGeneratorOutput :=
  shared ← propertiesOf static_escodegenParams;
  escodegenParams ← newObject shared;
  (if sourceMap (options this) then
     setProperty escodegenParams "sourceMap" (JsString "sourceMap");;
     setProperty escodegenParams "sourceContent" (JsString sourceCode)
   else ret tt);;
  copied ← propertiesOf escodegenParams;
  generateOptions ← newObject copied;
  format ← newObject {[ "compact" := JsBoolean (compact (options this)) ]};
  setProperty generateOptions "format" (JsObject format);;
  generatorOutput ← (fun s =>
    external (escodegen_generate imports astTree generateOptions (heap s))
      (EvGenerate astTree generateOptions) s);
  ret {| code := code generatorOutput; map := normalizedMap (map generatorOutput) |}.

(** Lines 207-212. *)
Definition getObfuscationResult (generatorOutput : IGeneratorOutput)
    : M IObfuscationResult :=
  external
    (correct (sourceMapCorrector this) (code generatorOutput) (map generatorOutput))
    (EvCorrect (code generatorOutput) (map generatorOutput)).

(** Lines 112-131. *)
Definition obfuscate (sourceCode : string) : M IObfuscationResult :=
  timeStart ← dateNow imports;
  logger_info LoggingMessage.Version (Some (LogString (packageJson_version imports)));;
  logger_info LoggingMessage.ObfuscationStarted None;;
  seed ← randomGenerator_getSeed;
  logger_info LoggingMessage.RandomGeneratorSeed (Some (LogSeed seed));;
  astTree ← parseCode sourceCode;
  obfuscatedAstTree ← transformAstTree astTree;
  generatorOutput ← generateCode sourceCode obfuscatedAstTree;
  timeEnd ← dateNow imports;
  let obfuscationTime := ((timeEnd - timeStart) / 1000)%float in
  logger_success LoggingMessage.ObfuscationCompleted (Some (LogNumber obfuscationTime));;
  getObfuscationResult generatorOutput.

End Methods.
End Model.

Arguments Completion : clear implicits.
Arguments External : clear implicits.
Arguments MapValue : clear implicits.
Arguments IGeneratorOutput : clear implicits.
Arguments LogValue : clear implicits.
Arguments ILogger : clear implicits.
Arguments IRandomGenerator : clear implicits.
Arguments ISourceMapCorrector : clear implicits.
Arguments ITransformersRunner : clear implicits.
Arguments JavaScriptObfuscator : clear implicits.
Arguments Imports : clear implicits.
Arguments Event : clear implicits.
Arguments State : clear implicits.
Arguments Run : clear implicits.
Arguments M : clear implicits.

Notation "x ← y ; z" := (bind y (fun x => z))
  (at level 20, y at level 100, z at level 200, only parsing) : M_scope.
Notation "x ;; z" := (bind x (fun _ => z))
  (at level 100, z at level 200, only parsing, right associativity) : M_scope.

(** ** Observations on a run *)

Section Observations.
Context {Exn Seed SourceMapGenerator : Type}.
Local Abbreviation Event := (Event Exn Seed SourceMapGenerator).

(** One call of [transformersRunner.transform]: the tree passed, the stage
    and what was returned. *)
Record TransformCall := {
  passed : ESTree.Program;
  stage : TransformationStage.t;
  returned : Completion Exn ESTree.Program
}.

Definition transformCall (e : Event) : option TransformCall :=
  match e with
  | EvTransform astTree _ st r => Some {| passed := astTree; stage := st; returned := r |}
  | _ => None
  end.

(** The stage invocations of a run, in order. *)
Definition transformCalls (evs : list Event) : list TransformCall :=
  omap transformCall evs.

(** The stages entered, as the logger is told, in order. *)
Definition stageEntry (e : Event) : option TransformationStage.t :=
  match e with
  | EvInfo LoggingMessage.TransformationStage (Some (LogStage st)) => Some st
  | _ => None
  end.

Definition stageEntries (evs : list Event) : list TransformationStage.t :=
  omap stageEntry evs.

(** Each call is handed [astTree] first and then what the call before it
    returned; a call that throws is the last one. *)
Fixpoint chained (astTree : ESTree.Program) (calls : list TransformCall) : Prop :=
  match calls with
  | [] => True
  | call :: rest =>
      passed call = astTree /\
      match returned call with
      | Normal astTree' => chained astTree' rest
      | Throw _ => rest = []
      end
  end.

(** The tree a chain of calls ends with. *)
Fixpoint lastReturned (astTree : ESTree.Program) (calls : list TransformCall)
    : Completion Exn ESTree.Program :=
  match calls with
  | [] => Normal astTree
  | call :: rest =>
      match returned call with
      | Normal astTree' => lastReturned astTree' rest
      | Throw e => Throw e
      end
  end.

Definition isClockSample (e : Event) : option float :=
  match e with EvDateNow sample => Some sample | _ => None end.

Definition isSuccess (e : Event) : bool :=
  match e with EvSuccess _ _ => true | _ => false end.

Definition isWarn (e : Event) : bool :=
  match e with EvWarn _ _ => true | _ => false end.

Definition isParse (e : Event) : bool :=
  match e with EvParse _ _ _ => true | _ => false end.

Definition isGenerate (e : Event) : bool :=
  match e with EvGenerate _ _ _ => true | _ => false end.

Definition isCorrect (e : Event) : bool :=
  match e with EvCorrect _ _ _ => true | _ => false end.

(** The events of the transformation phase: stage entries, stage calls and
    the empty-source warning. *)
Definition transformPhaseEvent (e : Event) : bool :=
  match e with
  | EvInfo LoggingMessage.TransformationStage (Some (LogStage _))
  | EvTransform _ _ _ _
  | EvWarn LoggingMessage.EmptySourceCode None => true
  | _ => false
  end.

(** The calls that decide what a run does and returns: parser, transformers
    runner, generator and corrector; not the clock, the logger or the seed. *)
Definition isCollaboratorCall (e : Event) : bool :=
  match e with
  | EvParse _ _ _ | EvTransform _ _ _ _ | EvGenerate _ _ _ | EvCorrect _ _ _ => true
  | _ => false
  end.

End Observations.

(** ** The stage plan, as the specification words it *)

(** The always-on stages. *)
Definition alwaysOn (st : TransformationStage.t) : bool :=
  match st with
  | TransformationStage.DeadCodeInjection
  | TransformationStage.ControlFlowFlattening => false
  | _ => true
  end.

(** Preparing, then the two gated stages when their flags are set, then
    Converting, Obfuscating and Finalizing. *)
Definition stagePlan (o : IOptions) : list TransformationStage.t :=
  [TransformationStage.Preparing]
  ++ (if deadCodeInjection o then [TransformationStage.DeadCodeInjection] else [])
  ++ (if controlFlowFlattening o then [TransformationStage.ControlFlowFlattening] else [])
  ++ [TransformationStage.Converting;
      TransformationStage.Obfuscating;
      TransformationStage.Finalizing].

(** The canonical empty program: a root that [NodeGuards.isProgramNode]
    recognizes, without statements and without a [leadingComments] property
    (an empty array that is present counts as attached comments, as it does
    for the [!] of line 151). *)
Definition canonicalEmpty (astTree : ESTree.Program) : Prop :=
  NodeGuards.isProgramNode astTree = true
  /\ ESTree.body astTree = []
  /\ ESTree.leadingComments astTree = None.

Section Staging.
Context {Exn World Sink Seed SourceMapGenerator : Type}.
Variable this : JavaScriptObfuscator Exn World Sink Seed SourceMapGenerator.
Local Open Scope M_scope.

(** Running a list of stages, each on the tree the one before returned. *)
Fixpoint runStages (stages : list TransformationStage.t) (astTree : ESTree.Program)
    : M Exn World Sink Seed SourceMapGenerator ESTree.Program :=
  match stages with
  | [] => ret astTree
  | st :: rest =>
      astTree' ← runTransformationStage this astTree st;
      runStages rest astTree'
  end.

End Staging.

(** ** Descriptions of a run

    Names for the parts of a run of [obfuscate]: the options the parser is
    given, the events before the parser is called, what the parser returns,
    the state it leaves, the properties of the local copy of the generation
    parameters, and the four ways a run can go. *)

Section Scenarios.
Context {Exn World Sink Seed SourceMapGenerator : Type}.
Variable imports : Imports Exn World SourceMapGenerator.
Variable this : JavaScriptObfuscator Exn World Sink Seed SourceMapGenerator.
Local Abbreviation State := (State World Sink).
Local Abbreviation Run := (Run Exn World Sink Seed SourceMapGenerator).
Local Abbreviation Event := (Event Exn Seed SourceMapGenerator).

(** The properties of the local [escodegenParams] of [generateCode] once the
    conditional of lines 186-189 is through: the shared ones and, when the
    flag is set, the two source-map properties. *)
Definition localProperties (sourceCode : string) (shared : Properties) : Properties :=
  if sourceMap (options this)
  then <["sourceContent" := JsString sourceCode]>
         (<["sourceMap" := JsString "sourceMap"]> shared)
  else shared.

(** The options [parseCode] gives the parser. *)
Definition parseOptions : ParseOptions :=
  {| attachComment := true; loc := sourceMap (options this) |}.

(** The events of a run before the parser is called. *)
Definition prologue (s : State) : list Event :=
  let seed := getSeed (randomGenerator this) (world s) in
  [ EvDateNow (Date_now imports (ticks s));
    EvInfo LoggingMessage.Version (Some (LogString (packageJson_version imports)));
    EvInfo LoggingMessage.ObfuscationStarted None;
    EvGetSeed seed;
    EvInfo LoggingMessage.RandomGeneratorSeed (Some (LogSeed seed)) ].

(** What the parser returns, and the state it leaves the collaborators in. *)
Definition parsed (sourceCode : string) (s : State) :=
  EsprimaFacade_parse imports sourceCode parseOptions (world s).

(** The state of a run when the parser has returned. *)
Definition afterParse (sourceCode : string) (s : State) : State :=
  let seed := getSeed (randomGenerator this) (world s) in
  mkState (parsed sourceCode s).2
    (info (logger this) LoggingMessage.RandomGeneratorSeed (Some (LogSeed seed))
       (info (logger this) LoggingMessage.ObfuscationStarted None
          (info (logger this) LoggingMessage.Version
             (Some (LogString (packageJson_version imports))) (sink s))))
    (S (ticks s)) (heap s).

(** The four ways a run of [obfuscate] goes: the parser throws, a stage
    throws, the generator throws, or the run reaches the corrector. *)
Inductive Scenario (sourceCode : string) (s : State) : Run IObfuscationResult -> Prop :=
| ParseFails e :
    (parsed sourceCode s).1 = Throw e ->
    Scenario sourceCode s
      (mkRun (Throw e) (afterParse sourceCode s)
         (prologue s ++ [EvParse sourceCode parseOptions (Throw e)]))
| TransformFails astTree e :
    (parsed sourceCode s).1 = Normal astTree ->
    let transformed := transformAstTree this astTree (afterParse sourceCode s) in
    outcome transformed = Throw e ->
    Scenario sourceCode s
      (mkRun (Throw e) (final transformed)
         (prologue s ++ EvParse sourceCode parseOptions (Normal astTree)
            :: events transformed))
| GenerateFails astTree obfuscatedAstTree e :
    (parsed sourceCode s).1 = Normal astTree ->
    let transformed := transformAstTree this astTree (afterParse sourceCode s) in
    outcome transformed = Normal obfuscatedAstTree ->
    let generated :=
      generateCode imports this sourceCode obfuscatedAstTree (final transformed) in
    outcome generated = Throw e ->
    Scenario sourceCode s
      (mkRun (Throw e) (final generated)
         (prologue s ++ EvParse sourceCode parseOptions (Normal astTree)
            :: events transformed ++ events generated))
| Completes astTree obfuscatedAstTree generatorOutput :
    (parsed sourceCode s).1 = Normal astTree ->
    let transformed := transformAstTree this astTree (afterParse sourceCode s) in
    outcome transformed = Normal obfuscatedAstTree ->
    let generated :=
      generateCode imports this sourceCode obfuscatedAstTree (final transformed) in
    outcome generated = Normal generatorOutput ->
    let timeStart := Date_now imports (ticks s) in
    let timeEnd := Date_now imports (ticks (final generated)) in
    let obfuscationTime := ((timeEnd - timeStart) / 1000)%float in
    let corrected :=
      correct (sourceMapCorrector this) (code generatorOutput) (map generatorOutput)
        (world (final generated)) in
    Scenario sourceCode s
      (mkRun corrected.1
         (mkState corrected.2
            (success (logger this) LoggingMessage.ObfuscationCompleted
               (Some (LogNumber obfuscationTime)) (sink (final generated)))
            (S (ticks (final generated))) (heap (final generated)))
         (prologue s ++ EvParse sourceCode parseOptions (Normal astTree)
            :: events transformed ++ events generated
            ++ [ EvDateNow timeEnd;
                 EvSuccess LoggingMessage.ObfuscationCompleted
                   (Some (LogNumber obfuscationTime));
                 EvCorrect (code generatorOutput) (map generatorOutput) corrected.1 ])).

(** The same instance used for one source text after the other: the state
    after the last run, whether the runs returned or threw. *)
Fixpoint obfuscateAll (sources : list string) (s : State) : State :=
  match sources with
  | [] => s
  | sourceCode :: rest =>
      obfuscateAll rest (final (obfuscate imports this sourceCode s))
  end.

End Scenarios.

(** ** Comparing two runs *)

Section Agreement.
Context {Exn World Sink Seed SourceMapGenerator : Type}.
Local Abbreviation State := (State World Sink).
Local Abbreviation M := (M Exn World Sink Seed SourceMapGenerator).
Local Abbreviation Run := (Run Exn World Sink Seed SourceMapGenerator).

(** Two states that differ at most in the sink and in the clock. *)
Definition sameStore (s1 s2 : State) : Prop :=
  world s1 = world s2 ∧ heap s1 = heap s2.

(** Two runs that end alike, leave the same store and made the same calls
    to parser, transformers runner, generator and corrector. *)
Definition agree {A} (r1 r2 : Run A) : Prop :=
  outcome r1 = outcome r2
  ∧ sameStore (final r1) (final r2)
  ∧ filter (fun e => isCollaboratorCall e) (events r1)
    = filter (fun e => isCollaboratorCall e) (events r2).

(** Two computations whose runs agree from any two states with the same store. *)
Definition Agree {A} (m1 m2 : M A) : Prop :=
  forall s1 s2, sameStore s1 s2 -> agree (m1 s1) (m2 s2).

End Agreement.

(** ** A concrete environment

    Collaborators small enough to run: the thrown values are strings, the
    collaborators count their calls, the sink keeps the messages it was
    given, and a source-map object is the text of its mappings. *)
Module Demo.

Definition emptyProgram : ESTree.Program := ESTree.mkNode "Program" [] None.

Definition oneStatement : ESTree.Program :=
  ESTree.mkNode "Program" [ESTree.mkNode "VariableDeclaration" [] None] None.

Definition commentOnly : ESTree.Program :=
  ESTree.mkNode "Program" []
    (Some [ {| ESTree.comment_type := "Line"; ESTree.value := " note" |} ]).

(** A block statement as root: not a program node. *)
Definition emptyBlock : ESTree.Program := ESTree.mkNode "BlockStatement" [] None.

Definition parse (sourceCode : string) (_ : ParseOptions)
    : External string nat ESTree.Program := fun calls =>
  (if bool_decide (sourceCode = "") then Normal emptyProgram
   else if bool_decide (sourceCode = "var x = 1;") then Normal oneStatement
   else if bool_decide (sourceCode = "// note") then Normal commentOnly
   else if bool_decide (sourceCode = "{}") then Normal emptyBlock
   else Throw "SyntaxError",
   S calls).

Definition stageName (st : TransformationStage.t) : string :=
  match st with
  | TransformationStage.Preparing => "Preparing"
  | TransformationStage.DeadCodeInjection => "DeadCodeInjection"
  | TransformationStage.ControlFlowFlattening => "ControlFlowFlattening"
  | TransformationStage.Converting => "Converting"
  | TransformationStage.Obfuscating => "Obfuscating"
  | TransformationStage.Finalizing => "Finalizing"
  end.

(** A runner that appends a statement named after the stage, and throws
    at the stage [failing], if any. *)
Definition runner (failing : option TransformationStage.t)
    : ITransformersRunner string nat :=
  {| transform astTree _ st := fun calls =>
       (if bool_decide (failing = Some st) then Throw "boom"
        else Normal (ESTree.mkNode (ESTree.type astTree)
                       (ESTree.body astTree ++ [ESTree.mkNode (stageName st) [] None])
                       (ESTree.leadingComments astTree)),
        S calls) |}.

(** A generator that lists the statement types and produces a source map
    exactly when its options carry a [sourceMap] property. *)
Definition generate (astTree : ESTree.Program) (generateOptions : ref) (h : Heap)
    : External string nat (IGeneratorOutput string) := fun calls =>
  (Normal {| code := String.concat ";" (List.map ESTree.type (ESTree.body astTree));
             map := match deref h generateOptions !! "sourceMap" with
                    | Some _ => MapObject "AAAA"
                    | None => MapNull
                    end |},
   S calls).

Definition corrector : ISourceMapCorrector string nat string :=
  {| correct generatedCode generatedMap := fun calls =>
       (Normal {| obfuscatedCode := generatedCode;
                  sourceMapText := match generatedMap with
                                   | MapString s => s
                                   | _ => "null"
                                   end |},
        S calls) |}.

Definition recorder : ILogger (list LoggingMessage.t) nat :=
  {| info message _ := fun messages => messages ++ [message];
     success message _ := fun messages => messages ++ [message];
     warn message _ := fun messages => messages ++ [message] |}.

Definition seeded (seed : nat) : IRandomGenerator nat nat :=
  {| getSeed := fun _ => seed |}.

Definition imports : Imports string nat string :=
  {| Date_now := fun n => match n with O => 1000%float | _ => 3500%float end;
     packageJson_version := "0.15.0";
     EsprimaFacade_parse := parse;
     escodegen_generate := generate;
     SourceMapGenerator_toString := fun g => "{mappings:" +:+ g +:+ "}" |}.

Definition obfuscator (o : IOptions) (failing : option TransformationStage.t)
    : JavaScriptObfuscator string nat (list LoggingMessage.t) nat string :=
  {| logger := recorder;
     options := o;
     randomGenerator := seeded 42;
     sourceMapCorrector := corrector;
     transformersRunner := runner failing |}.

Definition plain : IOptions :=
  {| compact := true; controlFlowFlattening := false;
     deadCodeInjection := false; sourceMap := false |}.

Definition withDeadCode : IOptions :=
  {| compact := true; controlFlowFlattening := false;
     deadCodeInjection := true; sourceMap := false |}.

Definition withSourceMap : IOptions :=
  {| compact := true; controlFlowFlattening := true;
     deadCodeInjection := true; sourceMap := true |}.

(** The state of a first run after the class is loaded. *)
Definition start : State nat (list LoggingMessage.t) :=
  {| world := 0; sink := []; ticks := 0; heap := loaded_heap |}.

End Demo.


(** ** Further observations *)

#[global] Instance NodeTransformer_eq_dec : EqDecision NodeTransformer.t.
Proof. solve_decision. Defined.

Section Protocol.
Context {Exn Seed SourceMapGenerator : Type}.
Local Abbreviation Event := (Event Exn Seed SourceMapGenerator).

Definition isSeedRead (e : Event) : bool :=
  match e with EvGetSeed _ => true | _ => false end.

Definition isTransform (e : Event) : bool :=
  match e with EvTransform _ _ _ _ => true | _ => false end.

(** The messages of the [info] calls of a run, in order. *)
Definition infoMessage (e : Event) : option LoggingMessage.t :=
  match e with EvInfo message _ => Some message | _ => None end.

(** What [runTransformationStage] shows of one stage call: the stage is
    told to the logger, then the runner is called with the static list. *)
Definition announcedCall (call : @TransformCall Exn) : list Event :=
  [ EvInfo LoggingMessage.TransformationStage (Some (LogStage (stage call)));
    EvTransform (passed call) transformersList (stage call) (returned call) ].

Definition announced (calls : list (@TransformCall Exn)) : list Event :=
  concat (announcedCall <$> calls).

(** The list a stage call hands to the runner is the static list. *)
Definition handsTheStaticList (e : Event) : Prop :=
  match e with
  | EvTransform _ transformers _ _ => transformers = transformersList
  | _ => True
  end.

(** What can follow the stage calls of a run: nothing, a generator call
    that throws, or a generator call that returns and then the call of the
    corrector on the code it returned and on its mapping as text. *)
Inductive Ending (textOf : MapValue SourceMapGenerator -> MapValue SourceMapGenerator)
    (result : Completion Exn IObfuscationResult) : list Event -> Prop :=
| EndsBeforeGeneration : Ending textOf result []
| EndsInGeneration astTree generateOptions e :
    result = Throw e ->
    Ending textOf result [EvGenerate astTree generateOptions (Throw e)]
| EndsInCorrection astTree generateOptions raw :
    Ending textOf result
      [ EvGenerate astTree generateOptions (Normal raw);
        EvCorrect (code raw) (textOf (map raw)) result ].

End Protocol.

(** Collaborators that fail: a generator that cannot render any tree and a
    corrector that rejects every mapping. *)
Module Faulty.

Definition generate (astTree : ESTree.Program) (generateOptions : ref) (h : Heap)
    : External string nat (IGeneratorOutput string) := fun calls =>
  (Throw "unsupported node", S calls).

Definition withFailingGenerator : Imports string nat string :=
  {| Date_now := Date_now Demo.imports;
     packageJson_version := packageJson_version Demo.imports;
     EsprimaFacade_parse := Demo.parse;
     escodegen_generate := generate;
     SourceMapGenerator_toString := SourceMapGenerator_toString Demo.imports |}.

Definition corrector : ISourceMapCorrector string nat string :=
  {| correct _ _ := fun calls => (Throw "bad mapping", S calls) |}.

Definition withFailingCorrector (o : IOptions)
    : JavaScriptObfuscator string nat (list LoggingMessage.t) nat string :=
  {| logger := Demo.recorder;
     options := o;
     randomGenerator := Demo.seeded 42;
     sourceMapCorrector := corrector;
     transformersRunner := Demo.runner None |}.

End Faulty.

(** A wall clock that is set back while a run is under way: [Date.now]
    gives the time of the day, which the system may correct, and not the
    time since a fixed instant. *)
Module WallClock.

Definition setBack : Imports string nat string :=
  {| Date_now := fun n => match n with O => 3500%float | _ => 1000%float end;
     packageJson_version := packageJson_version Demo.imports;
     EsprimaFacade_parse := Demo.parse;
     escodegen_generate := Demo.generate;
     SourceMapGenerator_toString := SourceMapGenerator_toString Demo.imports |}.

End WallClock.

(** ** A logger whose calls can throw

    The calls of the logger at lines 114-116, 128, 154 and 220 are outside
    any [try]: what a logger method throws leaves [obfuscate] as it is.
    The methods that call the logger, once more, with a logger whose
    methods may throw; the other methods are those of the class above. *)
Module WithFallibleLogger.
Section Methods.
Context {Exn World Sink Seed SourceMapGenerator : Type}.
Local Abbreviation Event := (Event Exn Seed SourceMapGenerator).
Local Abbreviation M := (M Exn World Sink Seed SourceMapGenerator).
Local Open Scope M_scope.

(** A logger method changes the sink and returns nothing, or throws. *)
Record Logger := {
  callInfo : LoggingMessage.t -> option (LogValue Seed) -> Sink ->
             Completion Exn unit * Sink;
  callSuccess : LoggingMessage.t -> option (LogValue Seed) -> Sink ->
                Completion Exn unit * Sink;
  callWarn : LoggingMessage.t -> option (LogValue Seed) -> Sink ->
             Completion Exn unit * Sink
}.

(** A call of a logger method. *)
Definition logging (method : Sink -> Completion Exn unit * Sink) (record : Event) : M unit :=
  fun s =>
    let returned := method (sink s) in
    mkRun returned.1 (mkState (world s) returned.2 (ticks s) (heap s)) [record].

Variable imports : Imports Exn World SourceMapGenerator.
Variable this : JavaScriptObfuscator Exn World Sink Seed SourceMapGenerator.
(** The logger injected in place of [logger this]. *)
Variable this_logger : Logger.

Definition logger_info (message : LoggingMessage.t) (value : option (LogValue Seed))
    : M unit :=
  logging (callInfo this_logger message value) (EvInfo message value).

Definition logger_success (message : LoggingMessage.t) (value : option (LogValue Seed))
    : M unit :=
  logging (callSuccess this_logger message value) (EvSuccess message value).

Definition logger_warn (message : LoggingMessage.t) (value : option (LogValue Seed))
    : M unit :=
  logging (callWarn this_logger message value) (EvWarn message value).

(** Lines 219-227. *)
Definition runTransformationStage (astTree : ESTree.Program)
    (transformationStage : TransformationStage.t) : M ESTree.Program :=
  logger_info LoggingMessage.TransformationStage (Some (LogStage transformationStage));;
  external
    (transform (transformersRunner this) astTree transformersList transformationStage)
    (EvTransform astTree transformersList transformationStage).

(** Lines 148-174. *)
Definition transformAstTree (astTree : ESTree.Program) : M ESTree.Program :=
  if isEmptyAstTree astTree then
    logger_warn LoggingMessage.EmptySourceCode None;;
    ret astTree
  else
    astTree ← runTransformationStage astTree TransformationStage.Preparing;
    astTree ← (if deadCodeInjection (options this)
               then runTransformationStage astTree TransformationStage.DeadCodeInjection
               else ret astTree);
    astTree ← (if controlFlowFlattening (options this)
               then runTransformationStage astTree TransformationStage.ControlFlowFlattening
               else ret astTree);
    astTree ← runTransformationStage astTree TransformationStage.Converting;
    astTree ← runTransformationStage astTree TransformationStage.Obfuscating;
    astTree ← runTransformationStage astTree TransformationStage.Finalizing;
    ret astTree.

(** Lines 112-131. *)
Definition obfuscate (sourceCode : string) : M IObfuscationResult :=
  timeStart ← dateNow imports;
  logger_info LoggingMessage.Version (Some (LogString (packageJson_version imports)));;
  logger_info LoggingMessage.ObfuscationStarted None;;
  seed ← randomGenerator_getSeed this;
  logger_info LoggingMessage.RandomGeneratorSeed (Some (LogSeed seed));;
  astTree ← parseCode imports this sourceCode;
  obfuscatedAstTree ← transformAstTree astTree;
  generatorOutput ← generateCode imports this sourceCode obfuscatedAstTree;
  timeEnd ← dateNow imports;
  let obfuscationTime := ((timeEnd - timeStart) / 1000)%float in
  logger_success LoggingMessage.ObfuscationCompleted (Some (LogNumber obfuscationTime));;
  getObfuscationResult this generatorOutput.

(** What the calls of this logger do to the sink: the logger of the class
    above that it is when none of its calls throws. *)
Definition settled : ILogger Sink Seed :=
  {| info message value := fun k => (callInfo this_logger message value k).2;
     success message value := fun k => (callSuccess this_logger message value k).2;
     warn message value := fun k => (callWarn this_logger message value k).2 |}.

(** The instance with that logger in its [logger] field. *)
Definition settledInstance : JavaScriptObfuscator Exn World Sink Seed SourceMapGenerator :=
  {| logger := settled;
     options := options this;
     randomGenerator := randomGenerator this;
     sourceMapCorrector := sourceMapCorrector this;
     transformersRunner := transformersRunner this |}.

(** Every call of the logger returns. *)
Definition returns : Prop :=
  forall message value k,
    (callInfo this_logger message value k).1 = Normal tt
    ∧ (callSuccess this_logger message value k).1 = Normal tt
    ∧ (callWarn this_logger message value k).1 = Normal tt.

(** Some call of the logger throws [e]. *)
Definition throws (e : Exn) : Prop :=
  exists message value k,
    (callInfo this_logger message value k).1 = Throw e
    ∨ (callSuccess this_logger message value k).1 = Throw e
    ∨ (callWarn this_logger message value k).1 = Throw e.

(** A run [r] with this logger against the run [r0] in which the calls of
    the logger return: the same run, or the run cut short by what a call of
    the logger threw. *)
Definition sameOrCutShort {A} (r r0 : Run Exn World Sink Seed SourceMapGenerator A) : Prop :=
  r = r0
  ∨ exists e, throws e ∧ outcome r = Throw e ∧ events r `prefix_of` events r0.

End Methods.

Arguments Logger : clear implicits.

(** A logger that keeps the messages, one that drops them, and one whose
    [info] throws. *)
Definition keeping : Logger string (list LoggingMessage.t) nat :=
  {| callInfo message _ := fun messages => (Normal tt, messages ++ [message]);
     callSuccess message _ := fun messages => (Normal tt, messages ++ [message]);
     callWarn message _ := fun messages => (Normal tt, messages ++ [message]) |}.

Definition discarding : Logger string (list LoggingMessage.t) nat :=
  {| callInfo _ _ := fun _ => (Normal tt, []);
     callSuccess _ _ := fun _ => (Normal tt, []);
     callWarn _ _ := fun _ => (Normal tt, []) |}.

Definition closed : Logger string (list LoggingMessage.t) nat :=
  {| callInfo _ _ := fun messages => (Throw "stream closed", messages);
     callSuccess message _ := fun messages => (Normal tt, messages ++ [message]);
     callWarn message _ := fun messages => (Normal tt, messages ++ [message]) |}.

End WithFallibleLogger.

(** * Verification *)

(** ** The store *)

Section Heaps.
Implicit Types (h : Heap) (r : ref) (props : Properties).

Lemma allocate_fresh props h : (allocate props h).1 ∉ dom h.
Proof. apply is_fresh. Qed.

Lemma allocate_lookup props h r :
  r ∈ dom h -> (allocate props h).2 !! r = h !! r.
Proof.
  intros Hr. unfold allocate. cbn. apply lookup_insert_ne.
  intros Heq. rewrite <- Heq in Hr. by apply is_fresh in Hr.
Qed.

Lemma allocate_deref props h :
  deref (allocate props h).2 (allocate props h).1 = props.
Proof. unfold deref, allocate. cbn. by rewrite lookup_insert_eq. Qed.

Lemma allocate_dom props h :
  dom (allocate props h).2 = {[ (allocate props h).1 ]} ∪ dom h.
Proof. unfold allocate. cbn. apply dom_insert_L. Qed.

Lemma assign_lookup_ne r key v h r' :
  r ≠ r' -> assign r key v h !! r' = h !! r'.
Proof. intros. unfold assign. by apply lookup_insert_ne. Qed.

Lemma assign_deref r key v h :
  deref (assign r key v h) r = <[key := v]> (deref h r).
Proof. unfold assign, deref at 1. by rewrite lookup_insert_eq. Qed.

Lemma assign_deref_ne r key v h r' :
  r ≠ r' -> deref (assign r key v h) r' = deref h r'.
Proof. intros. unfold deref. by rewrite assign_lookup_ne. Qed.

Lemma assign_dom r key v h : dom (assign r key v h) = {[ r ]} ∪ dom h.
Proof. unfold assign. apply dom_insert_L. Qed.

Lemma deref_lookup h h' r : h' !! r = h !! r -> deref h' r = deref h r.
Proof. unfold deref. by intros ->. Qed.

End Heaps.

(** ** Lists of events *)

Section Events.
Context {Exn Seed SourceMapGenerator : Type}.
Local Abbreviation Event := (Event Exn Seed SourceMapGenerator).
Implicit Types (evs : list Event) (e : Event).

Lemma filter_none (f : Event -> bool) (g : Event -> bool) evs :
  Forall (fun e => g e) evs ->
  (forall e, g e -> f e = false) ->
  filter (fun e => f e) evs = [].
Proof.
  intros Hall Hfg. induction Hall as [|e evs He _ IH]; [done|].
  rewrite filter_cons, IH. specialize (Hfg e He).
  destruct (decide (f e)) as [Hf|]; [|done]. rewrite Hfg in Hf. done.
Qed.

Lemma omap_none {B} (f : Event -> option B) (g : Event -> bool) evs :
  Forall (fun e => g e) evs ->
  (forall e, g e -> f e = None) ->
  omap f evs = [].
Proof.
  intros Hall Hfg. induction Hall as [|e evs He _ IH]; [done|].
  cbn. by rewrite (Hfg e He), IH.
Qed.

Lemma filter_cons_false (f : Event -> bool) (e : Event) (evs : list Event) :
  f e = false -> filter (fun e => f e) (e :: evs) = filter (fun e => f e) evs.
Proof.
  intros Hf. rewrite filter_cons. destruct (decide (f e)) as [Hfe|]; [|done].
  rewrite Hf in Hfe. done.
Qed.

Lemma transformCalls_app evs evs' :
  transformCalls (evs ++ evs') = transformCalls evs ++ transformCalls evs'.
Proof. apply omap_app. Qed.

Lemma stageEntries_app evs evs' :
  stageEntries (evs ++ evs') = stageEntries evs ++ stageEntries evs'.
Proof. apply omap_app. Qed.

End Events.

(** ** Chains of stage calls *)

Section Chains.
Context {Exn : Type}.
Implicit Types (calls : list (@TransformCall Exn)) (astTree : ESTree.Program).

(** In a chain, a call that throws is the last one, and the chain ends
    with what it threw. *)
Lemma chained_throw astTree calls call e :
  chained astTree calls ->
  call ∈ calls ->
  returned call = Throw e ->
  last calls = Some call ∧ lastReturned astTree calls = Throw e.
Proof.
  revert astTree. induction calls as [|c calls IH]; intros astTree Hch Hin Hret.
  - by apply elem_of_nil in Hin.
  - cbn in Hch. destruct Hch as [_ Hch]. cbn [lastReturned].
    apply elem_of_cons in Hin as [->|Hin].
    + rewrite Hret in *. by subst calls.
    + destruct (returned c) as [astTree'|e'].
      * destruct (IH astTree' Hch Hin Hret) as [Hlast ->]. split; [|done].
        destruct calls; [done|]. done.
      * subst calls. by apply elem_of_nil in Hin.
Qed.
End Chains.

(** ** Steps of a run *)

Section Steps.
Context {Exn World Sink Seed SourceMapGenerator : Type}.
Local Abbreviation State := (State World Sink).
Local Abbreviation M := (M Exn World Sink Seed SourceMapGenerator).
Local Abbreviation Run := (Run Exn World Sink Seed SourceMapGenerator).
Local Abbreviation Event := (Event Exn Seed SourceMapGenerator).
Implicit Types (s : State).

Lemma bind_run {A B} (m : M A) (k : A -> M B) s :
  bind m k s =
  match outcome (m s) with
  | Normal a => preceded (events (m s)) (k a (final (m s)))
  | Throw e => mkRun (Throw e) (final (m s)) (events (m s))
  end.
Proof. reflexivity. Qed.

Lemma bind_ret {A B} (a : A) (k : A -> M B) s : bind (ret a) k s = k a s.
Proof. reflexivity. Qed.

Lemma bind_logging {B} method record (k : unit -> M B) s :
  bind (logging method record) k s =
  preceded [record] (k tt (mkState (world s) (method (sink s)) (ticks s) (heap s))).
Proof. reflexivity. Qed.

Lemma bind_dateNow {B} (imports : Imports Exn World SourceMapGenerator)
    (k : float -> M B) s :
  bind (dateNow imports) k s =
  preceded [EvDateNow (Date_now imports (ticks s))]
    (k (Date_now imports (ticks s))
       (mkState (world s) (sink s) (S (ticks s)) (heap s))).
Proof. reflexivity. Qed.

Lemma bind_newObject {B} props (k : ref -> M B) s :
  bind (newObject props) k s =
  k (allocate props (heap s)).1
    (mkState (world s) (sink s) (ticks s) (allocate props (heap s)).2).
Proof. reflexivity. Qed.

Lemma bind_propertiesOf {B} r (k : Properties -> M B) s :
  bind (propertiesOf r) k s = k (deref (heap s) r) s.
Proof. reflexivity. Qed.

Lemma bind_setProperty {B} r key v (k : unit -> M B) s :
  bind (setProperty r key v) k s =
  k tt (mkState (world s) (sink s) (ticks s) (assign r key v (heap s))).
Proof. reflexivity. Qed.

Lemma bind_external {A B} (call : External Exn World A) record (k : A -> M B) s :
  bind (external call record) k s =
  let s' := mkState (call (world s)).2 (sink s) (ticks s) (heap s) in
  match (call (world s)).1 with
  | Normal a => preceded [record (Normal a)] (k a s')
  | Throw e => mkRun (Throw e) s' [record (Throw e)]
  end.
Proof.
  unfold bind at 1, external. cbn [outcome final events].
  destruct (call (world s)).1; reflexivity.
Qed.

Lemma preceded_preceded {A} evs evs' (r : Run A) :
  preceded evs (preceded evs' r) = preceded (evs ++ evs') r.
Proof. unfold preceded. cbn [outcome final events]. by rewrite app_assoc. Qed.

Lemma preceded_nil {A} (r : Run A) : preceded [] r = r.
Proof. reflexivity. Qed.
End Steps.

(** ** Run equations *)

Section Runs.
Context {Exn World Sink Seed SourceMapGenerator : Type}.
Variable imports : Imports Exn World SourceMapGenerator.
Variable this : JavaScriptObfuscator Exn World Sink Seed SourceMapGenerator.
Local Abbreviation State := (State World Sink).
Local Abbreviation Run := (Run Exn World Sink Seed SourceMapGenerator).
Local Abbreviation Event := (Event Exn Seed SourceMapGenerator).
Implicit Types (s : State) (astTree : ESTree.Program).

Lemma isEmptyAstTree_canonical astTree :
  isEmptyAstTree astTree = true <-> canonicalEmpty astTree.
Proof.
  unfold isEmptyAstTree, canonicalEmpty.
  rewrite !andb_true_iff, negb_true_iff, bool_decide_eq_false.
  rewrite Nat.eqb_eq, length_zero_iff_nil, <- eq_None_not_Some. tauto.
Qed.

Lemma transformAstTree_staged astTree s :
  isEmptyAstTree astTree = false ->
  transformAstTree this astTree s = runStages this (stagePlan (options this)) astTree s.
Proof.
  intros H. unfold transformAstTree. rewrite H. unfold stagePlan.
  destruct (deadCodeInjection (options this)), (controlFlowFlattening (options this));
    reflexivity.
Qed.

Lemma transformAstTree_empty astTree s :
  isEmptyAstTree astTree = true ->
  transformAstTree this astTree s =
    mkRun (Normal astTree)
      (mkState (world s) (warn (logger this) LoggingMessage.EmptySourceCode None (sink s))
         (ticks s) (heap s))
      [EvWarn LoggingMessage.EmptySourceCode None].
Proof. intros H. unfold transformAstTree. rewrite H. reflexivity. Qed.

Lemma runTransformationStage_run astTree st s :
  runTransformationStage this astTree st s =
  let returned := transform (transformersRunner this) astTree transformersList st (world s) in
  mkRun returned.1
    (mkState returned.2
       (info (logger this) LoggingMessage.TransformationStage (Some (LogStage st)) (sink s))
       (ticks s) (heap s))
    [EvInfo LoggingMessage.TransformationStage (Some (LogStage st));
     EvTransform astTree transformersList st returned.1].
Proof.
  unfold runTransformationStage, logger_info. rewrite bind_logging. reflexivity.
Qed.

Lemma runStages_cons st stages astTree s :
  runStages this (st :: stages) astTree s =
  let r := runTransformationStage this astTree st s in
  match outcome r with
  | Normal astTree' =>
      let r' := runStages this stages astTree' (final r) in
      mkRun (outcome r') (final r') (events r ++ events r')
  | Throw e => mkRun (Throw e) (final r) (events r)
  end.
Proof. reflexivity. Qed.

Lemma runStages_spec stages astTree s :
  let r := runStages this stages astTree s in
  let calls := transformCalls (events r) in
  chained astTree calls
  ∧ lastReturned astTree calls = outcome r
  ∧ stage <$> calls `prefix_of` stages
  ∧ (forall astTree', outcome r = Normal astTree' -> stage <$> calls = stages)
  ∧ stageEntries (events r) = stage <$> calls
  ∧ Forall (fun e => transformPhaseEvent e) (events r)
  ∧ filter (fun e => isWarn e) (events r) = []
  ∧ heap (final r) = heap s
  ∧ ticks (final r) = ticks s.
Proof.
  revert astTree s. induction stages as [|st stages IH]; intros astTree s.
  - cbn. repeat split; try done. 
  - rewrite runStages_cons, runTransformationStage_run. cbn zeta.
    cbn [outcome final events].
    destruct (transform _ _ _ _ _).1 as [astTree'|e] eqn:Hret.
    + match goal with |- context [runStages this stages astTree' ?s'] =>
        specialize (IH astTree' s'); set (r' := runStages this stages astTree' s') in * end.
      cbn in IH. destruct IH as (Hch & Hlast & Hpre & Hall & Hent & Hphase & Hwarn & Hheap & Hticks).
      cbn. repeat split; try done.
      * by apply prefix_cons.
      * intros t' Ht'. f_equal. by apply (Hall t').
      * by f_equal.
      * by repeat constructor.
    + cbn. repeat split; try done.
      * apply prefix_cons, prefix_nil.
      * by repeat constructor.
Qed.

Lemma generateCode_run sourceCode astTree s :
  exists (escodegenParams generateOptions format : ref) (h : Heap),
    let generated := escodegen_generate imports astTree generateOptions h (world s) in
    generateCode imports this sourceCode astTree s =
      mkRun
        (match generated.1 with
         | Normal generatorOutput =>
             Normal {| code := code generatorOutput;
                       map := normalizedMap imports (map generatorOutput) |}
         | Throw e => Throw e
         end)
        (mkState generated.2 (sink s) (ticks s) h)
        [EvGenerate astTree generateOptions generated.1]
    ∧ (escodegenParams ∉ dom (heap s))
    ∧ (generateOptions ∉ dom (heap s))
    ∧ (format ∉ dom (heap s))
    ∧ (forall r, r ∈ dom (heap s) -> h !! r = heap s !! r)
    ∧ deref h escodegenParams =
        localProperties this sourceCode (deref (heap s) static_escodegenParams)
    ∧ deref h generateOptions =
        <["format" := JsObject format]>
          (localProperties this sourceCode (deref (heap s) static_escodegenParams))
    ∧ deref h format = {[ "compact" := JsBoolean (compact (options this)) ]}.
Proof.
  set (shared := deref (heap s) static_escodegenParams).
  set (a1 := allocate shared (heap s)).
  set (h1 := if sourceMap (options this)
             then assign a1.1 "sourceContent" (JsString sourceCode)
                    (assign a1.1 "sourceMap" (JsString "sourceMap") a1.2)
             else a1.2).
  set (a2 := allocate (deref h1 a1.1) h1).
  set (a3 := allocate {[ "compact" := JsBoolean (compact (options this)) ]} a2.2).
  exists a1.1, a2.1, a3.1, (assign a2.1 "format" (JsObject a3.1) a3.2).
  assert (Hdom1 : dom h1 = {[ a1.1 ]} ∪ dom (heap s)).
  { unfold h1. destruct (sourceMap (options this));
      rewrite ?assign_dom; unfold a1; rewrite allocate_dom; set_solver. }
  assert (Hold1 : forall r, r ≠ a1.1 -> h1 !! r = a1.2 !! r).
  { intros r Hr. unfold h1. destruct (sourceMap (options this)); [|done].
    by rewrite !assign_lookup_ne. }
  assert (Hlocal : deref h1 a1.1 = localProperties this sourceCode shared).
  { unfold h1, localProperties. destruct (sourceMap (options this)).
    - rewrite !assign_deref. unfold a1. by rewrite allocate_deref.
    - unfold a1. by rewrite allocate_deref. }
  pose proof (allocate_fresh shared (heap s)) as Hf1. fold a1 in Hf1.
  pose proof (allocate_fresh (deref h1 a1.1) h1) as Hf2. fold a2 in Hf2.
  pose proof (allocate_fresh {[ "compact" := JsBoolean (compact (options this)) ]} a2.2) as Hf3.
  fold a3 in Hf3.
  assert (Hdom2 : dom a2.2 = {[ a2.1 ]} ∪ dom h1) by apply allocate_dom.
  assert (Hdom3 : dom a3.2 = {[ a3.1 ]} ∪ dom a2.2) by apply allocate_dom.
  split; [|repeat split].
  - unfold generateCode.
    rewrite bind_propertiesOf, bind_newObject. fold shared. fold a1.
    rewrite bind_run.
    assert (Hcond :
      (if sourceMap (options this)
       then @bind Exn World Sink Seed SourceMapGenerator unit unit
              (setProperty a1.1 "sourceMap" (JsString "sourceMap"))
              (fun _ => setProperty a1.1 "sourceContent" (JsString sourceCode))
       else ret ())
        (mkState (world s) (sink s) (ticks s) a1.2)
      = mkRun (Normal ()) (mkState (world s) (sink s) (ticks s) h1) []).
    { unfold h1. by destruct (sourceMap (options this)). }
    rewrite Hcond. cbn [outcome final events]. rewrite preceded_nil.
    rewrite bind_propertiesOf, bind_newObject. cbn [heap]. fold a2.
    rewrite bind_newObject. cbn [heap]. fold a3.
    rewrite bind_setProperty. cbn [heap world sink ticks].
    rewrite bind_run. unfold external.
    cbn [outcome final events heap world sink ticks].
    destruct (escodegen_generate _ _ _ _ _).1; reflexivity.
  - done.
  - set_solver.
  - set_solver.
  - intros r Hr. rewrite assign_lookup_ne by set_solver.
    unfold a3. rewrite allocate_lookup by set_solver.
    unfold a2. rewrite allocate_lookup by set_solver.
    rewrite Hold1 by set_solver. unfold a1. by rewrite allocate_lookup.
  - rewrite assign_deref_ne by set_solver.
    rewrite <- Hlocal. apply deref_lookup.
    unfold a3. rewrite allocate_lookup by set_solver.
    unfold a2. rewrite allocate_lookup by set_solver. done.
  - rewrite assign_deref. f_equal. rewrite <- Hlocal.
    transitivity (deref a2.2 a2.1).
    + apply deref_lookup. unfold a3. rewrite allocate_lookup by set_solver. done.
    + unfold a2. by rewrite allocate_deref.
  - rewrite assign_deref_ne by set_solver. unfold a3. by rewrite allocate_deref.
Qed.

Lemma obfuscate_run sourceCode s :
  obfuscate imports this sourceCode s =
  preceded (prologue imports this s)
    (bind (parseCode imports this sourceCode)
       (fun astTree =>
          bind (transformAstTree this astTree)
            (fun obfuscatedAstTree =>
               bind (generateCode imports this sourceCode obfuscatedAstTree)
                 (fun generatorOutput =>
                    bind (dateNow imports)
                      (fun timeEnd =>
                         bind (logger_success this LoggingMessage.ObfuscationCompleted
                                 (Some (LogNumber
                                    ((timeEnd - Date_now imports (ticks s)) / 1000)%float)))
                           (fun _ => getObfuscationResult this generatorOutput)))))
       (mkState (world s)
          (sink (afterParse imports this sourceCode s))
          (S (ticks s)) (heap s))).
Proof.
  unfold obfuscate, logger_info, randomGenerator_getSeed.
  rewrite bind_dateNow, bind_logging, bind_logging.
  rewrite bind_run. cbn [outcome final events world sink ticks heap].
  rewrite bind_logging. rewrite !preceded_preceded. reflexivity.
Qed.

Lemma obfuscate_scenario sourceCode s :
  Scenario imports this sourceCode s (obfuscate imports this sourceCode s).
Proof.
  rewrite obfuscate_run. unfold parseCode at 1.
  rewrite (bind_external _ _ _ _). cbn zeta. cbn [world sink ticks heap].
  fold (parseOptions this). fold (parsed imports this sourceCode s).
  change (mkState (parsed imports this sourceCode s).2 _ _ _)
    with (afterParse imports this sourceCode s).
  destruct (parsed imports this sourceCode s).1 as [astTree|e] eqn:Hparsed.
  2: { exact (ParseFails imports this sourceCode s e Hparsed). }
  rewrite bind_run.
  destruct (outcome (transformAstTree this astTree (afterParse imports this sourceCode s)))
    as [obfuscatedAstTree|e] eqn:Htransformed.
  2: { exact (TransformFails imports this sourceCode s astTree e Hparsed Htransformed). }
  rewrite bind_run.
  destruct (outcome (generateCode imports this sourceCode obfuscatedAstTree
                       (final (transformAstTree this astTree
                                 (afterParse imports this sourceCode s)))))
    as [generatorOutput|e] eqn:Hgenerated.
  2: { exact (GenerateFails imports this sourceCode s astTree obfuscatedAstTree e
                Hparsed Htransformed Hgenerated). }
  unfold logger_success, getObfuscationResult.
  rewrite bind_dateNow, bind_logging. unfold external.
  exact (Completes imports this sourceCode s astTree obfuscatedAstTree generatorOutput
           Hparsed Htransformed Hgenerated).
Qed.
End Runs.

(** ** The phases of a run *)

Section Phases.
Context {Exn World Sink Seed SourceMapGenerator : Type}.
Variable imports : Imports Exn World SourceMapGenerator.
Variable this : JavaScriptObfuscator Exn World Sink Seed SourceMapGenerator.
Local Abbreviation State := (State World Sink).
Local Abbreviation Run := (Run Exn World Sink Seed SourceMapGenerator).
Local Abbreviation Event := (Event Exn Seed SourceMapGenerator).
Implicit Types (s : State) (astTree : ESTree.Program).
Lemma transformAstTree_frame astTree s :
  let r := transformAstTree this astTree s in
  Forall (fun e => transformPhaseEvent e) (events r)
  ∧ heap (final r) = heap s
  ∧ ticks (final r) = ticks s.
Proof.
  destruct (isEmptyAstTree astTree) eqn:Hempty; cbn zeta.
  - rewrite transformAstTree_empty by done. cbn [outcome final events ticks heap].
    by repeat constructor.
  - rewrite transformAstTree_staged by done.
    pose proof (runStages_spec this (stagePlan (options this)) astTree s) as H.
    cbn zeta in H. tauto.
Qed.

Lemma generateCode_frame sourceCode astTree s :
  let r := generateCode imports this sourceCode astTree s in
  (exists generateOptions returned,
     events r = [EvGenerate astTree generateOptions returned]
     ∧ outcome r = match returned with
                   | Normal generatorOutput =>
                       Normal {| code := code generatorOutput;
                                 map := normalizedMap imports (map generatorOutput) |}
                   | Throw e => Throw e
                   end)
  ∧ ticks (final r) = ticks s.
Proof.
  destruct (generateCode_run imports this sourceCode astTree s)
    as (r1 & r2 & r3 & h & Hrun & _).
  cbn zeta in *. rewrite Hrun. cbn [outcome final events ticks]. eauto.
Qed.


Lemma generateCode_passes sourceCode astTree s :
  exists generateOptions returned,
    events (generateCode imports this sourceCode astTree s) =
      [EvGenerate astTree generateOptions returned].
Proof.
  destruct (generateCode_frame sourceCode astTree s) as [(o & ret & H & _) _]. eauto.
Qed.

(** A filter that rejects the events of the transformation phase finds
    nothing in it. *)
Lemma phase_filter (f : Event -> bool) astTree s :
  (forall e, transformPhaseEvent e -> f e = false) ->
  filter (fun e => f e) (events (transformAstTree this astTree s)) = [].
Proof. intros Hf. eapply filter_none; [apply transformAstTree_frame | done]. Qed.

Lemma phase_filter_parse astTree s :
  filter (fun e : Event => isParse e) (events (transformAstTree this astTree s)) = [].
Proof. apply phase_filter. by intros []. Qed.

Lemma phase_filter_success astTree s :
  filter (fun e : Event => isSuccess e) (events (transformAstTree this astTree s)) = [].
Proof. apply phase_filter. by intros []. Qed.

Lemma phase_filter_generate astTree s :
  filter (fun e : Event => isGenerate e) (events (transformAstTree this astTree s)) = [].
Proof. apply phase_filter. by intros []. Qed.

Lemma phase_filter_correct astTree s :
  filter (fun e : Event => isCorrect e) (events (transformAstTree this astTree s)) = [].
Proof. apply phase_filter. by intros []. Qed.

Lemma phase_clock astTree s :
  omap isClockSample (events (transformAstTree this astTree s)) = [].
Proof. eapply omap_none; [apply transformAstTree_frame | by intros []]. Qed.

(** A run whose parser throws stops there. *)
Lemma obfuscate_parse_throws sourceCode s e :
  (parsed imports this sourceCode s).1 = Throw e ->
  obfuscate imports this sourceCode s =
    mkRun (Throw e) (afterParse imports this sourceCode s)
      (prologue imports this s ++ [EvParse sourceCode (parseOptions this) (Throw e)]).
Proof.
  intros Hthrow.
  destruct (obfuscate_scenario imports this sourceCode s)
    as [e' Hp|astTree e' Hp tr Htr|astTree t' e' Hp tr Htr gen Hgen
       |astTree t' go Hp tr Htr gen Hgen t0 t1 time corrected];
    rewrite Hthrow in Hp; try discriminate Hp.
  by injection Hp as <-.
Qed.

(** What a run that got a tree from the parser shows of its transformation
    phase: the stage calls, stage entries and warnings are those of
    [transformAstTree], and the generator is called, once and on the tree
    that phase returned, exactly when it returned one. *)
Lemma obfuscate_phases sourceCode s astTree :
  (parsed imports this sourceCode s).1 = Normal astTree ->
  let r := obfuscate imports this sourceCode s in
  let transformed :=
    transformAstTree this astTree (afterParse imports this sourceCode s) in
  transformCalls (events r) = transformCalls (events transformed)
  ∧ stageEntries (events r) = stageEntries (events transformed)
  ∧ filter (fun e => isWarn e) (events r) = filter (fun e => isWarn e) (events transformed)
  ∧ match outcome transformed with
    | Normal obfuscatedAstTree =>
        exists generateOptions returned,
          filter (fun e => isGenerate e) (events r)
            = [EvGenerate obfuscatedAstTree generateOptions returned]
    | Throw e =>
        outcome r = Throw e
        ∧ filter (fun e => isGenerate e) (events r) = []
        ∧ filter (fun e => isCorrect e) (events r) = []
        ∧ filter (fun e => isSuccess e) (events r) = []
    end.
Proof.
  intros Hparsed r transformed. subst r.
  assert (Hpro : forall evs : list Event,
            let before :=
              prologue imports this s
              ++ EvParse sourceCode (parseOptions this) (Normal astTree) :: evs in
            transformCalls before = transformCalls evs
            ∧ stageEntries before = stageEntries evs
            ∧ filter (fun e => isWarn e) before = filter (fun e => isWarn e) evs
            ∧ filter (fun e => isGenerate e) before = filter (fun e => isGenerate e) evs
            ∧ filter (fun e => isCorrect e) before = filter (fun e => isCorrect e) evs
            ∧ filter (fun e => isSuccess e) before = filter (fun e => isSuccess e) evs)
    by (intros evs; repeat split; reflexivity).
  destruct (obfuscate_scenario imports this sourceCode s)
    as [e' Hp|astTree' e' Hp tr Htr|astTree' t' e' Hp tr Htr gen Hgen
       |astTree' t' go Hp tr Htr gen Hgen t0 t1 time corrected];
    rewrite Hparsed in Hp; try discriminate Hp; injection Hp as <-;
    subst tr transformed; cbn [outcome events]; try subst gen;
    try match goal with
    | |- context [generateCode imports this sourceCode t' ?s'] =>
        destruct (generateCode_passes sourceCode t' s')
          as (o & ret & ->)
    end;
    match goal with
    | |- context [prologue imports this s ++ _ :: ?evs] =>
        destruct (Hpro evs) as (-> & -> & -> & -> & -> & ->)
    end;
    rewrite ?transformCalls_app, ?stageEntries_app, ?filter_app, Htr,
      ?phase_filter_generate, ?phase_filter_correct,
      ?phase_filter_success, ?app_nil_r.
  - done.
  - repeat split; try done. by exists o, ret.
  - repeat split; try done. by exists o, ret.
Qed.

Lemma transformAstTree_calls astTree s :
  let r := transformAstTree this astTree s in
  let calls := transformCalls (events r) in
  chained astTree calls
  ∧ lastReturned astTree calls = outcome r
  ∧ stageEntries (events r) = stage <$> calls.
Proof.
  destruct (isEmptyAstTree astTree) eqn:Hempty; cbn zeta.
  - by rewrite transformAstTree_empty.
  - rewrite transformAstTree_staged by done.
    pose proof (runStages_spec this (stagePlan (options this)) astTree s) as H.
    cbn zeta in H. tauto.
Qed.

(** How a run ends.  Either it throws before the completion is logged, and
    then the clock was sampled once and neither a success nor a call of the
    corrector is among its events; or the generator returned [raw] and the
    run ends with the second clock sample, the completion event and the
    call of the corrector, in this order. *)
Lemma obfuscate_ending sourceCode s :
  let r := obfuscate imports this sourceCode s in
  let timeStart := Date_now imports (ticks s) in
  let timeEnd := Date_now imports (S (ticks s)) in
  let completed :=
    EvSuccess LoggingMessage.ObfuscationCompleted
      (Some (LogNumber ((timeEnd - timeStart) / 1000)%float)) in
  ((exists e, outcome r = Throw e)
   ∧ filter (fun e => isSuccess e) (events r) = []
   ∧ filter (fun e => isCorrect e) (events r) = []
   ∧ omap isClockSample (events r) = [timeStart])
  ∨ (exists astTree generateOptions format h w raw before,
       (escodegen_generate imports astTree generateOptions h w).1 = Normal raw
       ∧ deref h generateOptions =
           <["format" := JsObject format]>
             (localProperties this sourceCode (deref (heap s) static_escodegenParams))
       ∧ events r =
           before
           ++ [ EvGenerate astTree generateOptions (Normal raw);
                EvDateNow timeEnd;
                completed;
                EvCorrect (code raw) (normalizedMap imports (map raw)) (outcome r) ]
       ∧ filter (fun e => isSuccess e) before = []
       ∧ filter (fun e => isCorrect e) before = []
       ∧ filter (fun e => isGenerate e) before = []
       ∧ omap isClockSample before = [timeStart]).
Proof.
  intros r timeStart timeEnd completed. subst r.
  assert (Hpro : forall evs : list Event,
            let before :=
              prologue imports this s
              ++ EvParse sourceCode (parseOptions this) (parsed imports this sourceCode s).1
                 :: evs in
            filter (fun e => isSuccess e) before = filter (fun e => isSuccess e) evs
            ∧ filter (fun e => isCorrect e) before = filter (fun e => isCorrect e) evs
            ∧ filter (fun e => isGenerate e) before = filter (fun e => isGenerate e) evs
            ∧ omap isClockSample before = timeStart :: omap isClockSample evs)
    by (intros evs; repeat split; reflexivity).
  destruct (obfuscate_scenario imports this sourceCode s)
    as [e' Hp|astTree e' Hp tr Htr|astTree t' e' Hp tr Htr gen Hgen
       |astTree t' go Hp tr Htr gen Hgen t0 t1 time corrected].
  - left. cbn [outcome events]. rewrite <- Hp.
    destruct (Hpro []) as (-> & -> & _ & ->). eauto.
  - left. cbn [outcome events]. rewrite <- Hp. subst tr.
    destruct (Hpro (events (transformAstTree this astTree
                              (afterParse imports this sourceCode s))))
      as (-> & -> & _ & ->).
    rewrite phase_filter_success, phase_filter_correct, phase_clock. eauto.
  - left. cbn [outcome events]. rewrite <- Hp. subst tr gen.
    match goal with
    | |- context [prologue imports this s ++ _ :: ?evs] =>
        destruct (Hpro evs) as (-> & -> & _ & ->)
    end.
    match goal with
    | |- context [generateCode imports this sourceCode t' ?s'] =>
        destruct (generateCode_passes sourceCode t' s')
          as (o & ret & ->)
    end.
    rewrite !filter_app, omap_app, phase_filter_success, phase_filter_correct, phase_clock.
    eauto.
  - right. subst time corrected t0 t1. cbn [outcome events].
    destruct (transformAstTree_frame astTree (afterParse imports this sourceCode s))
      as (_ & Hheap & Hticks). fold tr in Hheap, Hticks.
    destruct (generateCode_run imports this sourceCode t' (final tr))
      as (r1 & o & fmt & h & Hrun & _ & _ & _ & _ & _ & Hopts & _).
    cbn zeta in Hrun. fold gen in Hrun. rewrite Hrun in Hgen |- *.
    cbn [outcome final events ticks world heap sink] in Hgen |- *.
    destruct (escodegen_generate imports t' o h (world (final tr))).1 as [raw|e'] eqn:Hraw;
      [|discriminate Hgen]. injection Hgen as <-. cbn [code map].
    rewrite Hheap in Hopts. rewrite Hticks. cbn [afterParse ticks heap] in *.
    exists t', o, fmt, h, (world (final tr)), raw,
      (prologue imports this s
       ++ EvParse sourceCode (parseOptions this) (Normal astTree) :: events tr).
    split; [done|]. split; [done|]. split.
    { rewrite <- app_assoc. reflexivity. }
    rewrite <- Hp. subst tr.
    destruct (Hpro (events (transformAstTree this astTree
                              (afterParse imports this sourceCode s))))
      as (-> & -> & -> & ->).
    by rewrite phase_filter_success, phase_filter_correct, phase_filter_generate, phase_clock.
Qed.

End Phases.

(** * The claims *)

(** ** Parsing *)

Section Parsing.
Context {Exn World Sink Seed SourceMapGenerator : Type}.
Variable imports : Imports Exn World SourceMapGenerator.
Variable this : JavaScriptObfuscator Exn World Sink Seed SourceMapGenerator.
Local Abbreviation State := (State World Sink).
Local Abbreviation Run := (Run Exn World Sink Seed SourceMapGenerator).
Local Abbreviation Event := (Event Exn Seed SourceMapGenerator).
Implicit Types (s : State) (astTree : ESTree.Program).

(** C6.  Whatever the source text, the parser is called once, with
    [attachComment] set and with [loc] equal to the [sourceMap] flag of the
    configuration. *)
Theorem parser_invoked_with_fixed_options sourceCode s :
  filter (fun e => isParse e) (events (obfuscate imports this sourceCode s)) =
    [ EvParse sourceCode
        {| attachComment := true; loc := sourceMap (options this) |}
        (EsprimaFacade_parse imports sourceCode
           {| attachComment := true; loc := sourceMap (options this) |} (world s)).1 ].
Proof.
  fold (parseOptions this). fold (parsed imports this sourceCode s).
  destruct (obfuscate_scenario imports this sourceCode s)
    as [e Hp|astTree e Hp tr Htr|astTree t' e Hp tr Htr gen Hgen
       |astTree t' go Hp tr Htr gen Hgen t0 t1 time corrected];
    cbn [events]; rewrite Hp; try subst tr; try subst gen;
    try destruct (generateCode_passes imports this sourceCode t'
                    (final (transformAstTree this astTree
                              (afterParse imports this sourceCode s))))
      as (o & ret & ->);
    rewrite ?filter_app, ?filter_cons, ?filter_app, ?phase_filter_parse; reflexivity.
Qed.

(** C7.  When the parser throws, [obfuscate] throws the same value; the
    parser was called once, and nothing follows its call: no stage is
    entered, the generator and the corrector are not called and no success
    is logged. *)
Theorem parse_error_surfaces_unmodified sourceCode s e :
  (EsprimaFacade_parse imports sourceCode
     {| attachComment := true; loc := sourceMap (options this) |} (world s)).1 = Throw e ->
  let r := obfuscate imports this sourceCode s in
  outcome r = Throw e
  ∧ events r =
      prologue imports this s
      ++ [ EvParse sourceCode
             {| attachComment := true; loc := sourceMap (options this) |} (Throw e) ]
  ∧ transformCalls (events r) = []
  ∧ stageEntries (events r) = []
  ∧ filter (fun e => isGenerate e) (events r) = []
  ∧ filter (fun e => isCorrect e) (events r) = []
  ∧ filter (fun e => isSuccess e) (events r) = [].
Proof.
  intros Hthrow r. subst r.
  fold (parseOptions this) in *. fold (parsed imports this sourceCode s) in Hthrow.
  rewrite (obfuscate_parse_throws imports this sourceCode s e Hthrow).
  cbn [outcome events]. by repeat split.
Qed.

End Parsing.

Lemma parse_error_surfaces_unmodified_witness :
  outcome (obfuscate Demo.imports (Demo.obfuscator Demo.plain None) "var" Demo.start)
    = Throw "SyntaxError"
  ∧ transformCalls
      (events (obfuscate Demo.imports (Demo.obfuscator Demo.plain None) "var" Demo.start))
    = [].
Proof.
  pose proof (parse_error_surfaces_unmodified Demo.imports
                (Demo.obfuscator Demo.plain None) "var" Demo.start "SyntaxError"
                eq_refl) as H.
  cbn zeta in H. tauto.
Defined.

(** ** The transformation pipeline *)

Section Pipeline.
Context {Exn World Sink Seed SourceMapGenerator : Type}.
Variable imports : Imports Exn World SourceMapGenerator.
Variable this : JavaScriptObfuscator Exn World Sink Seed SourceMapGenerator.
Local Abbreviation State := (State World Sink).
Local Abbreviation Run := (Run Exn World Sink Seed SourceMapGenerator).
Local Abbreviation Event := (Event Exn Seed SourceMapGenerator).
Implicit Types (s : State) (astTree : ESTree.Program).

Lemma stagePlan_alwaysOn (o : IOptions) :
  filter (fun st => alwaysOn st) (stagePlan o) =
    [ TransformationStage.Preparing; TransformationStage.Converting;
      TransformationStage.Obfuscating; TransformationStage.Finalizing ].
Proof. unfold stagePlan. by destruct (deadCodeInjection o), (controlFlowFlattening o). Qed.

Lemma stagePlan_gates (o : IOptions) :
  (TransformationStage.DeadCodeInjection ∈ stagePlan o <-> deadCodeInjection o = true)
  ∧ (TransformationStage.ControlFlowFlattening ∈ stagePlan o
     <-> controlFlowFlattening o = true).
Proof.
  unfold stagePlan.
  destruct (deadCodeInjection o), (controlFlowFlattening o); cbn;
    rewrite ?elem_of_cons, ?elem_of_nil; split; split; intros; try done;
    naive_solver.
Qed.

(** C9.  The short circuit is taken exactly for the canonical empty program:
    a program node, no statement, no [leadingComments] property.  Then
    nothing but the warning happens and the tree is returned as it is.
    Otherwise, and so for a root that is not a program node and for an empty
    program that has a [leadingComments] property, no warning is logged and
    the stage plan is run from its first stage, on the tree itself. *)
Theorem short_circuit_exactly_when_canonical_empty astTree s :
  let r := transformAstTree this astTree s in
  let calls := transformCalls (events r) in
  (isEmptyAstTree astTree = true <-> canonicalEmpty astTree)
  ∧ (canonicalEmpty astTree ->
       outcome r = Normal astTree
       ∧ events r = [EvWarn LoggingMessage.EmptySourceCode None])
  ∧ (¬ canonicalEmpty astTree ->
       r = runStages this (stagePlan (options this)) astTree s
       ∧ filter (fun e => isWarn e) (events r) = []
       ∧ (exists first rest,
            calls = first :: rest
            ∧ passed first = astTree
            ∧ stage first = TransformationStage.Preparing)
       ∧ stage <$> calls `prefix_of` stagePlan (options this)
       ∧ (forall astTree', outcome r = Normal astTree' ->
            stage <$> calls = stagePlan (options this)))
  ∧ (NodeGuards.isProgramNode astTree = false -> ¬ canonicalEmpty astTree)
  ∧ (forall comments, ESTree.leadingComments astTree = Some comments ->
       ¬ canonicalEmpty astTree)
  ∧ (ESTree.body astTree ≠ [] -> ¬ canonicalEmpty astTree).
Proof.
  intros r calls. split; [apply isEmptyAstTree_canonical|].
  split; [|split; [|unfold canonicalEmpty; repeat split; intros; intros (? & ? & ?);
                    congruence]].
  - intros Hc%isEmptyAstTree_canonical. subst r.
    by rewrite transformAstTree_empty.
  - intros Hc. assert (He : isEmptyAstTree astTree = false).
    { destruct (isEmptyAstTree astTree) eqn:E; [|done].
      by apply isEmptyAstTree_canonical in E. }
    assert (Hr : r = runStages this (stagePlan (options this)) astTree s)
      by apply transformAstTree_staged, He.
    split; [done|]. subst calls. rewrite Hr.
    pose proof (runStages_spec this (stagePlan (options this)) astTree s) as H.
    cbn zeta in H.
    destruct H as (Hch & Hlast & Hpre & Hall & Hent & Hphase & Hwarn & Hheap & Hticks).
    repeat split; try done.
    unfold stagePlan in *. cbn [app] in *. rewrite runStages_cons, runTransformationStage_run in *.
    cbn zeta in *. cbn [outcome final events] in *.
    destruct (transform _ _ _ _ _).1; cbn [events app transformCalls omap transformCall];
      eauto.
Qed.

(** C2.  When the parser returns the canonical empty program, no stage is
    entered and no transformer is called, the empty-source warning is
    logged, and the very next call is the generator's, on the tree the
    parser returned. *)
Theorem empty_program_skips_every_stage sourceCode s astTree :
  (EsprimaFacade_parse imports sourceCode
     {| attachComment := true; loc := sourceMap (options this) |} (world s)).1
    = Normal astTree ->
  canonicalEmpty astTree ->
  let r := obfuscate imports this sourceCode s in
  transformCalls (events r) = []
  ∧ stageEntries (events r) = []
  ∧ filter (fun e => isWarn e) (events r) = [EvWarn LoggingMessage.EmptySourceCode None]
  ∧ exists generateOptions returned rest,
      events r =
        prologue imports this s
        ++ [ EvParse sourceCode
               {| attachComment := true; loc := sourceMap (options this) |}
               (Normal astTree);
             EvWarn LoggingMessage.EmptySourceCode None;
             EvGenerate astTree generateOptions returned ]
        ++ rest.
Proof.
  intros Hparsed Hc%isEmptyAstTree_canonical r. subst r.
  fold (parseOptions this) in *. fold (parsed imports this sourceCode s) in Hparsed.
  destruct (obfuscate_scenario imports this sourceCode s)
    as [e' Hp|astTree' e' Hp tr Htr|astTree' t' e' Hp tr Htr gen Hgen
       |astTree' t' go Hp tr Htr gen Hgen t0 t1 time corrected];
    rewrite Hparsed in Hp; try discriminate Hp; injection Hp as <-;
    subst tr; rewrite transformAstTree_empty in * by done;
    cbn [outcome final events] in *; try discriminate Htr; injection Htr as <-;
    subst gen;
    match goal with
    | |- context [generateCode imports this sourceCode astTree ?s'] =>
        destruct (generateCode_passes imports this sourceCode astTree s')
          as (o & ret & ->)
    end.
  - repeat split; try done. by exists o, ret, [].
  - repeat split; try done. eexists o, ret, _. reflexivity.
Qed.

(** C1.  When the parser returns a tree that is not the canonical empty
    program, the stages entered are an initial part of the stage plan
    (Preparing, DeadCodeInjection if its flag is set, ControlFlowFlattening
    if its flag is set, Converting, Obfuscating, Finalizing), each call is
    handed the tree the call before it returned, and when no call throws the
    whole plan was run and the generator gets the last tree.  The always-on
    stages keep their order whatever the flags. *)
Theorem stages_run_in_the_fixed_order sourceCode s astTree :
  (EsprimaFacade_parse imports sourceCode
     {| attachComment := true; loc := sourceMap (options this) |} (world s)).1
    = Normal astTree ->
  ¬ canonicalEmpty astTree ->
  let r := obfuscate imports this sourceCode s in
  let calls := transformCalls (events r) in
  stage <$> calls `prefix_of` stagePlan (options this)
  ∧ stageEntries (events r) = stage <$> calls
  ∧ chained astTree calls
  ∧ (forall obfuscatedAstTree,
       lastReturned astTree calls = Normal obfuscatedAstTree ->
       stage <$> calls = stagePlan (options this)
       ∧ exists generateOptions returned,
           filter (fun e => isGenerate e) (events r)
             = [EvGenerate obfuscatedAstTree generateOptions returned])
  ∧ (forall e, lastReturned astTree calls = Throw e ->
       outcome r = Throw e
       ∧ filter (fun e => isGenerate e) (events r) = [])
  ∧ (TransformationStage.DeadCodeInjection ∈ stagePlan (options this)
     <-> deadCodeInjection (options this) = true)
  ∧ (TransformationStage.ControlFlowFlattening ∈ stagePlan (options this)
     <-> controlFlowFlattening (options this) = true)
  ∧ (forall o : IOptions,
       filter (fun st => alwaysOn st) (stagePlan o) =
         [ TransformationStage.Preparing; TransformationStage.Converting;
           TransformationStage.Obfuscating; TransformationStage.Finalizing ]).
Proof.
  intros Hparsed Hc r calls.
  assert (He : isEmptyAstTree astTree = false).
  { destruct (isEmptyAstTree astTree) eqn:E; [|done].
    by apply isEmptyAstTree_canonical in E. }
  fold (parseOptions this) in *. fold (parsed imports this sourceCode s) in Hparsed.
  pose proof (runStages_spec this (stagePlan (options this)) astTree
                (afterParse imports this sourceCode s)) as H.
  rewrite <- transformAstTree_staged in H by done. cbn zeta in H.
  destruct H as (Hch & Hlast & Hpre & Hall & Hent & _).
  destruct (obfuscate_phases imports this sourceCode s astTree Hparsed)
    as (Hcalls & Hentries & _ & Hgenerate).
  subst calls r. rewrite Hcalls, Hentries, Hlast.
  split; [done|]. split; [done|]. split; [done|].
  split; [|split; [|split; [|split]]].
  - intros t' Ht'. rewrite Ht' in Hgenerate. split; [by apply (Hall t')|done].
  - intros e He'. rewrite He' in Hgenerate. tauto.
  - apply stagePlan_gates.
  - apply stagePlan_gates.
  - apply stagePlan_alwaysOn.
Qed.

End Pipeline.

Lemma empty_program_skips_every_stage_witness :
  transformCalls
    (events (obfuscate Demo.imports (Demo.obfuscator Demo.withSourceMap None) ""
               Demo.start)) = [].
Proof.
  refine (proj1 (empty_program_skips_every_stage Demo.imports
                   (Demo.obfuscator Demo.withSourceMap None) "" Demo.start
                   Demo.emptyProgram eq_refl _)).
  by repeat split.
Defined.

Lemma stages_run_in_the_fixed_order_witness :
  stage <$> transformCalls
              (events (obfuscate Demo.imports (Demo.obfuscator Demo.withDeadCode None)
                         "var x = 1;" Demo.start))
    `prefix_of` stagePlan Demo.withDeadCode.
Proof.
  refine (proj1 (stages_run_in_the_fixed_order Demo.imports
                   (Demo.obfuscator Demo.withDeadCode None) "var x = 1;" Demo.start
                   Demo.oneStatement eq_refl _)).
  intros (_ & Hbody & _). discriminate Hbody.
Defined.

(** The scenarios of the specification, run. *)

Example scenario_A_empty_source :
  stageEntries
    (events (obfuscate Demo.imports (Demo.obfuscator Demo.withSourceMap None) ""
               Demo.start)) = [].
Proof. vm_compute. reflexivity. Qed.

Example scenario_B_both_gates_off :
  stageEntries
    (events (obfuscate Demo.imports (Demo.obfuscator Demo.plain None) "var x = 1;"
               Demo.start))
  = [ TransformationStage.Preparing; TransformationStage.Converting;
      TransformationStage.Obfuscating; TransformationStage.Finalizing ].
Proof. vm_compute. reflexivity. Qed.

Example scenario_C_dead_code_injection_on :
  stageEntries
    (events (obfuscate Demo.imports (Demo.obfuscator Demo.withDeadCode None)
               "var x = 1;" Demo.start))
  = [ TransformationStage.Preparing; TransformationStage.DeadCodeInjection;
      TransformationStage.Converting; TransformationStage.Obfuscating;
      TransformationStage.Finalizing ].
Proof. vm_compute. reflexivity. Qed.

Example empty_comment_array_is_not_degenerate :
  isEmptyAstTree (ESTree.mkNode "Program" [] (Some [])) = false.
Proof. reflexivity. Qed.

Example block_root_is_transformed :
  stageEntries
    (events (obfuscate Demo.imports (Demo.obfuscator Demo.plain None) "{}"
               Demo.start))
  = [ TransformationStage.Preparing; TransformationStage.Converting;
      TransformationStage.Obfuscating; TransformationStage.Finalizing ].
Proof. vm_compute. reflexivity. Qed.

Example comment_only_program_is_transformed :
  stageEntries
    (events (obfuscate Demo.imports (Demo.obfuscator Demo.plain None) "// note"
               Demo.start))
  = [ TransformationStage.Preparing; TransformationStage.Converting;
      TransformationStage.Obfuscating; TransformationStage.Finalizing ].
Proof. vm_compute. reflexivity. Qed.

(** ** Failing transformers *)

Section Failures.
Context {Exn World Sink Seed SourceMapGenerator : Type}.
Variable imports : Imports Exn World SourceMapGenerator.
Variable this : JavaScriptObfuscator Exn World Sink Seed SourceMapGenerator.
Local Abbreviation State := (State World Sink).
Local Abbreviation Run := (Run Exn World Sink Seed SourceMapGenerator).
Local Abbreviation Event := (Event Exn Seed SourceMapGenerator).
Implicit Types (s : State) (astTree : ESTree.Program).

(** C3, as the code has it.  When a call of the transformers runner throws,
    [obfuscate] throws the very same value: nothing is attached to it.  The
    call that threw is the last stage call, its stage is the last one the
    logger was told, the generator and the corrector are not called, so no
    result exists, and no success is logged. *)
Theorem transformer_failure_propagates_unmodified sourceCode s call e :
  let r := obfuscate imports this sourceCode s in
  call ∈ transformCalls (events r) ->
  returned call = Throw e ->
  outcome r = Throw e
  ∧ last (transformCalls (events r)) = Some call
  ∧ last (stageEntries (events r)) = Some (stage call)
  ∧ filter (fun e => isGenerate e) (events r) = []
  ∧ filter (fun e => isCorrect e) (events r) = []
  ∧ filter (fun e => isSuccess e) (events r) = [].
Proof.
  intros r Hin Hthrow. subst r.
  destruct (parsed imports this sourceCode s).1 as [astTree|e'] eqn:Hparsed.
  2: { rewrite (obfuscate_parse_throws imports this sourceCode s e' Hparsed) in Hin.
       by apply elem_of_nil in Hin. }
  destruct (obfuscate_phases imports this sourceCode s astTree Hparsed)
    as (Hcalls & Hentries & _ & Hgenerate).
  destruct (transformAstTree_calls this astTree (afterParse imports this sourceCode s))
    as (Hch & Hlast & Hent).
  rewrite Hcalls in Hin |- *. rewrite Hentries, Hent.
  destruct (chained_throw astTree _ call e Hch Hin Hthrow) as [Hlastcall Hreturned].
  rewrite Hreturned in Hlast. rewrite <- Hlast in Hgenerate.
  rewrite fmap_last, Hlastcall. tauto.
Qed.

End Failures.

Lemma transformer_failure_propagates_unmodified_witness :
  outcome (obfuscate Demo.imports
             (Demo.obfuscator Demo.plain (Some TransformationStage.Obfuscating))
             "var x = 1;" Demo.start) = Throw "boom".
Proof.
  refine (proj1 (transformer_failure_propagates_unmodified Demo.imports
                   (Demo.obfuscator Demo.plain (Some TransformationStage.Obfuscating))
                   "var x = 1;" Demo.start
                   {| passed :=
                        ESTree.mkNode "Program"
                          [ ESTree.mkNode "VariableDeclaration" [] None;
                            ESTree.mkNode "Preparing" [] None;
                            ESTree.mkNode "Converting" [] None ] None;
                      stage := TransformationStage.Obfuscating;
                      returned := Throw "boom" |}
                   "boom" _ eq_refl)).
  vm_compute. do 2 apply list_elem_of_further. apply list_elem_of_here.
Defined.

(** The claim as the specification words it asks for an error that names
    the stage.  The value thrown is the transformer's own: a runner that
    throws the same value at Converting and at Obfuscating makes the two
    runs end alike, so no reading of the value thrown tells the stage. *)
Lemma failure_does_not_name_the_stage :
  ¬ exists stageOf : string -> TransformationStage.t,
      forall failing,
        failing ∈ [TransformationStage.Converting; TransformationStage.Obfuscating] ->
        exists e,
          outcome (obfuscate Demo.imports (Demo.obfuscator Demo.plain (Some failing))
                     "var x = 1;" Demo.start) = Throw e
          ∧ stageOf e = failing.
Proof.
  intros [stageOf H].
  destruct (H TransformationStage.Converting) as (e1 & H1 & Hs1);
    [apply list_elem_of_here|].
  destruct (H TransformationStage.Obfuscating) as (e2 & H2 & Hs2);
    [apply list_elem_of_further, list_elem_of_here|].
  vm_compute in H1, H2. injection H1 as <-. injection H2 as <-.
  rewrite Hs1 in Hs2. discriminate Hs2.
Qed.

Example scenario_D_obfuscating_fails :
  let r := obfuscate Demo.imports
             (Demo.obfuscator Demo.plain (Some TransformationStage.Obfuscating))
             "var x = 1;" Demo.start in
  outcome r = Throw "boom"
  ∧ stageEntries (events r)
    = [ TransformationStage.Preparing; TransformationStage.Converting;
        TransformationStage.Obfuscating ]
  ∧ filter (fun e => isSuccess e) (events r) = [].
Proof. vm_compute. done. Qed.

(** ** Generation and completion *)

Section Completion.
Context {Exn World Sink Seed SourceMapGenerator : Type}.
Variable imports : Imports Exn World SourceMapGenerator.
Variable this : JavaScriptObfuscator Exn World Sink Seed SourceMapGenerator.
Local Abbreviation State := (State World Sink).
Local Abbreviation Run := (Run Exn World Sink Seed SourceMapGenerator).
Local Abbreviation Event := (Event Exn Seed SourceMapGenerator).
Implicit Types (s : State) (astTree : ESTree.Program).

Lemma normalizedMap_text (generatedMap : MapValue SourceMapGenerator) :
  (exists text, normalizedMap imports generatedMap = MapString text)
  ∧ (forall g, generatedMap = MapObject g ->
       normalizedMap imports generatedMap
         = MapString (SourceMapGenerator_toString imports g))
  ∧ (generatedMap = MapNull ∨ generatedMap = MapUndefined ->
       normalizedMap imports generatedMap = MapString "").
Proof.
  repeat split.
  - destruct generatedMap as [| |g|[|]]; cbn; eauto.
  - by intros g ->.
  - by intros [->| ->].
Qed.

(** C4.  Whenever the corrector is called, the generator has returned some
    [raw] output, the code handed over is that of [raw], and the mapping
    handed over is a string: the [toString] of the source-map object when
    [raw] carries one, the empty string when its [map] is [null] or
    absent.  When the [sourceMap] flag is off, the options the generator
    was given have no [sourceMap] property (as long as the static
    parameters have none), so a generator that produces a mapping only on
    request leads to the empty string. *)
Theorem corrector_is_handed_mapping_text sourceCode s generatedCode generatedMap result :
  let r := obfuscate imports this sourceCode s in
  EvCorrect generatedCode generatedMap result ∈ events r ->
  exists astTree generateOptions h w raw,
    (escodegen_generate imports astTree generateOptions h w).1 = Normal raw
    ∧ EvGenerate astTree generateOptions (Normal raw) ∈ events r
    ∧ generatedCode = code raw
    ∧ generatedMap = normalizedMap imports (map raw)
    ∧ (exists text, generatedMap = MapString text)
    ∧ (forall g, map raw = MapObject g ->
         generatedMap = MapString (SourceMapGenerator_toString imports g))
    ∧ (map raw = MapNull ∨ map raw = MapUndefined -> generatedMap = MapString "")
    ∧ (sourceMap (options this) = false ->
       deref (heap s) static_escodegenParams !! "sourceMap" = None ->
       deref h generateOptions !! "sourceMap" = None)
    ∧ (sourceMap (options this) = false ->
       deref (heap s) static_escodegenParams !! "sourceMap" = None ->
       (forall astTree' generateOptions' h' w' raw',
          (escodegen_generate imports astTree' generateOptions' h' w').1 = Normal raw' ->
          deref h' generateOptions' !! "sourceMap" = None ->
          map raw' = MapNull ∨ map raw' = MapUndefined) ->
       generatedMap = MapString "").
Proof.
  intros r Hin. subst r.
  assert (Hfilter : EvCorrect generatedCode generatedMap result
                    ∈ filter (fun e : Event => isCorrect e)
                        (events (obfuscate imports this sourceCode s)))
    by (by apply list_elem_of_filter).
  destruct (obfuscate_ending imports this sourceCode s)
    as [(_ & _ & Hnone & _)
       |(astTree & o & fmt & h & w & raw & before & Hraw & Hopts & Hevents & _ & Hcorrect & _)].
  { rewrite Hnone in Hfilter. by apply elem_of_nil in Hfilter. }
  rewrite Hevents in Hfilter |- *. rewrite filter_app, Hcorrect in Hfilter.
  apply list_elem_of_singleton in Hfilter. injection Hfilter as -> -> ->.
  destruct (normalizedMap_text (map raw)) as (Htext & Hobject & Hnull).
  assert (Hrequested : sourceMap (options this) = false ->
            deref (heap s) static_escodegenParams !! "sourceMap" = None ->
            deref h o !! "sourceMap" = None).
  { intros Hflag Hstatic. rewrite Hopts. unfold localProperties. rewrite Hflag.
    by rewrite lookup_insert_ne. }
  exists astTree, o, h, w, raw. repeat split; try done.
  - apply elem_of_app. right. apply list_elem_of_here.
  - intros Hflag Hstatic Hcontract.
    apply Hnull, (Hcontract astTree o h w raw Hraw). by apply Hrequested.
Qed.

(** C5, as the code has it.  The clock sampled is [Date.now], the wall
    clock, whatever its samples are: nothing makes the second one come
    after the first.  The first event of a run is a sample of that clock.
    If the run logs a completion, it does so once, the clock was sampled
    exactly twice, the second time right before that event, and the event
    carries [(timeEnd - timeStart) / 1000] in JavaScript number
    arithmetic.  A run that returns a result has logged it; a run that
    throws before has sampled the clock once. *)
Theorem completion_event_carries_elapsed_seconds sourceCode s :
  let r := obfuscate imports this sourceCode s in
  let timeStart := Date_now imports (ticks s) in
  let timeEnd := Date_now imports (S (ticks s)) in
  let completed :=
    EvSuccess LoggingMessage.ObfuscationCompleted
      (Some (LogNumber ((timeEnd - timeStart) / 1000)%float)) in
  head (events r) = Some (EvDateNow timeStart)
  ∧ ((filter (fun e => isSuccess e) (events r) = []
      ∧ omap isClockSample (events r) = [timeStart]
      ∧ exists e, outcome r = Throw e)
     ∨ (filter (fun e => isSuccess e) (events r) = [completed]
        ∧ omap isClockSample (events r) = [timeStart; timeEnd]
        ∧ exists before after,
            events r = before ++ [EvDateNow timeEnd; completed] ++ after))
  ∧ (forall result, outcome r = Normal result ->
       filter (fun e => isSuccess e) (events r) = [completed]).
Proof.
  intros r timeStart timeEnd completed. 
  assert (Hhead : head (events r) = Some (EvDateNow timeStart)).
  { subst r. by destruct (obfuscate_scenario imports this sourceCode s). }
  split; [done|].
  destruct (obfuscate_ending imports this sourceCode s)
    as [([e He] & Hsuccess & _ & Hclock)
       |(astTree & o & fmt & h & w & raw & before & _ & _ & Hevents & Hsuccess & _ & _
         & Hclock)];
    cbn zeta in *; subst completed timeEnd timeStart r.
  - split; [left; eauto|]. intros result Hresult. rewrite He in Hresult. done.
  - rewrite Hevents, filter_app, omap_app, Hsuccess, Hclock.
    split; [right|done].
    split; [done|]. split; [done|].
    eexists (before ++ [_]), [_]. rewrite <- app_assoc. reflexivity.
Qed.

End Completion.

Lemma corrector_is_handed_mapping_text_witness :
  exists raw : IGeneratorOutput string,
    MapString "{mappings:AAAA}" = normalizedMap Demo.imports (map raw).
Proof.
  destruct (corrector_is_handed_mapping_text Demo.imports
              (Demo.obfuscator Demo.withSourceMap None) "var x = 1;" Demo.start
              "VariableDeclaration;Preparing;DeadCodeInjection;ControlFlowFlattening;Converting;Obfuscating;Finalizing"
              (MapString "{mappings:AAAA}")
              (Normal
                 {| obfuscatedCode :=
                      "VariableDeclaration;Preparing;DeadCodeInjection;ControlFlowFlattening;Converting;Obfuscating;Finalizing";
                    sourceMapText := "{mappings:AAAA}" |}))
    as (astTree & generateOptions & h & w & raw & _ & _ & _ & Hmap & _).
  - vm_compute. repeat first [apply list_elem_of_here | apply list_elem_of_further].
  - exists raw. exact Hmap.
Defined.

Example no_source_map_gives_empty_text :
  filter (fun e => isCorrect e)
    (events (obfuscate Demo.imports (Demo.obfuscator Demo.plain None) "var x = 1;"
               Demo.start))
  = [ EvCorrect "VariableDeclaration;Preparing;Converting;Obfuscating;Finalizing"
        (MapString "")
        (Normal {| obfuscatedCode :=
                     "VariableDeclaration;Preparing;Converting;Obfuscating;Finalizing";
                   sourceMapText := "" |}) ].
Proof. vm_compute. reflexivity. Qed.

Example elapsed_seconds_of_a_run :
  filter (fun e => isSuccess e)
    (events (obfuscate Demo.imports (Demo.obfuscator Demo.plain None) "var x = 1;"
               Demo.start))
  = [ EvSuccess LoggingMessage.ObfuscationCompleted (Some (LogNumber 2.5%float)) ].
Proof. vm_compute. reflexivity. Qed.

(** The claim as the specification words it has the seconds computed from
    a monotonic clock.  The samples are those of [Date.now]: when the wall
    clock is set back between the two, from 3500 to 1000 milliseconds, the
    second sample lies before the first and the completion event of the
    run carries -2.5 seconds. *)
Lemma negative_seconds_when_the_clock_is_set_back :
  omap isClockSample
    (events (obfuscate WallClock.setBack (Demo.obfuscator Demo.plain None) "var x = 1;"
               Demo.start))
  = [3500%float; 1000%float]
  ∧ (1000 <? 3500)%float = true
  ∧ filter (fun e => isSuccess e)
      (events (obfuscate WallClock.setBack (Demo.obfuscator Demo.plain None) "var x = 1;"
                 Demo.start))
    = [ EvSuccess LoggingMessage.ObfuscationCompleted (Some (LogNumber (-2.5)%float)) ]
  ∧ (-2.5 <? 0)%float = true.
Proof. vm_compute. done. Qed.

(** ** The shared generation parameters *)

Section Sharing.
Context {Exn World Sink Seed SourceMapGenerator : Type}.
Variable imports : Imports Exn World SourceMapGenerator.
Variable this : JavaScriptObfuscator Exn World Sink Seed SourceMapGenerator.
Local Abbreviation State := (State World Sink).
Local Abbreviation Run := (Run Exn World Sink Seed SourceMapGenerator).
Local Abbreviation Event := (Event Exn Seed SourceMapGenerator).
Implicit Types (s : State) (astTree : ESTree.Program).

Lemma obfuscate_heap sourceCode s object :
  object ∈ dom (heap s) ->
  heap (final (obfuscate imports this sourceCode s)) !! object = heap s !! object.
Proof.
  intros Hobject.
  destruct (obfuscate_scenario imports this sourceCode s)
    as [e' Hp|astTree e' Hp tr Htr|astTree t' e' Hp tr Htr gen Hgen
       |astTree t' go Hp tr Htr gen Hgen t0 t1 time corrected];
    cbn [final heap]; try done;
    destruct (transformAstTree_frame this astTree (afterParse imports this sourceCode s))
      as (_ & Hheap & _); fold tr in Hheap; try (by rewrite Hheap);
    destruct (generateCode_run imports this sourceCode t' (final tr))
      as (r1 & o & fmt & h & Hrun & _ & _ & _ & Hframe & _);
    cbn zeta in Hrun; fold gen in Hrun; rewrite Hrun; cbn [final heap];
    rewrite Hframe by (by rewrite Hheap); by rewrite Hheap.
Qed.

(** C10.  [generateCode] leaves the static parameters as they are: every
    object that existed before the call, the static one among them, has the
    properties it had.  What it writes, it writes to objects it has just
    created: the local copy, which gets the source-map properties exactly
    when the flag is set, the options handed to the generator and their
    [format].  So the static parameters are the same after a run of
    [obfuscate], and after any number of runs on the same instance. *)
Theorem static_parameters_are_never_mutated sourceCode astTree s shared :
  heap s !! static_escodegenParams = Some shared ->
  let r := generateCode imports this sourceCode astTree s in
  heap (final r) !! static_escodegenParams = Some shared
  ∧ (forall object, object ∈ dom (heap s) -> heap (final r) !! object = heap s !! object)
  ∧ (exists escodegenParams generateOptions format returned,
       events r = [EvGenerate astTree generateOptions returned]
       ∧ escodegenParams ≠ static_escodegenParams
       ∧ generateOptions ≠ static_escodegenParams
       ∧ format ≠ static_escodegenParams
       ∧ deref (heap (final r)) escodegenParams = localProperties this sourceCode shared
       ∧ deref (heap (final r)) generateOptions =
           <["format" := JsObject format]> (localProperties this sourceCode shared)
       ∧ deref (heap (final r)) format
           = {[ "compact" := JsBoolean (compact (options this)) ]})
  ∧ heap (final (obfuscate imports this sourceCode s)) !! static_escodegenParams
      = Some shared
  ∧ (forall sources,
       heap (obfuscateAll imports this sources s) !! static_escodegenParams = Some shared).
Proof.
  intros Hshared r.
  assert (Hdom : forall s', heap s' !! static_escodegenParams = Some shared ->
                   static_escodegenParams ∈ dom (heap s')).
  { intros s' Hs'. apply elem_of_dom. eauto. }
  assert (Hrun : forall sourceCode' s',
            heap s' !! static_escodegenParams = Some shared ->
            heap (final (obfuscate imports this sourceCode' s')) !! static_escodegenParams
              = Some shared).
  { intros sourceCode' s' Hs'. rewrite obfuscate_heap; [done|by apply Hdom]. }
  subst r.
  destruct (generateCode_run imports this sourceCode astTree s)
    as (r1 & o & fmt & h & Hgen & Hr1 & Ho & Hfmt & Hframe & Hlocal & Hopts & Hformat).
  cbn zeta in Hgen. rewrite Hgen. cbn [final heap events].
  assert (Hderef : deref (heap s) static_escodegenParams = shared)
    by (unfold deref; by rewrite Hshared).
  rewrite Hderef in *.
  split; [by rewrite Hframe by (by apply Hdom)|].
  split; [done|]. split.
  { assert (Hfresh : forall object, object ∉ dom (heap s) ->
                       object ≠ static_escodegenParams).
    { intros object Hobject ->. by apply Hobject, Hdom. }
    exists r1, o, fmt. eexists. repeat split; try done; by apply Hfresh. }
  split; [by apply Hrun|].
  clear Hgen Hr1 Ho Hfmt Hframe Hlocal Hopts Hformat Hderef.
  intros sources. revert s Hshared.
  induction sources as [|sourceCode' sources IH]; intros s Hshared; [done|].
  cbn [obfuscateAll]. by apply IH, Hrun.
Qed.

End Sharing.

Lemma static_parameters_are_never_mutated_witness :
  heap (final (obfuscate Demo.imports (Demo.obfuscator Demo.withSourceMap None)
                 "var x = 1;" Demo.start)) !! static_escodegenParams
  = Some escodegenParams_initializer.
Proof.
  refine (proj1 (proj2 (proj2 (proj2
            (static_parameters_are_never_mutated Demo.imports
               (Demo.obfuscator Demo.withSourceMap None) "var x = 1;"
               Demo.oneStatement Demo.start escodegenParams_initializer _))))).
  reflexivity.
Defined.

Example static_parameters_after_a_run_with_source_map :
  deref (heap (final (obfuscate Demo.imports (Demo.obfuscator Demo.withSourceMap None)
                        "var x = 1;" Demo.start))) static_escodegenParams
  = escodegenParams_initializer.
Proof. vm_compute. reflexivity. Qed.

(** ** Determinism *)

Section Determinism.
Context {Exn World Sink Seed SourceMapGenerator : Type}.
Local Abbreviation State := (State World Sink).
Local Abbreviation M := (M Exn World Sink Seed SourceMapGenerator).
Local Abbreviation Run := (Run Exn World Sink Seed SourceMapGenerator).
Local Abbreviation Event := (Event Exn Seed SourceMapGenerator).
Local Abbreviation Obfuscator := (JavaScriptObfuscator Exn World Sink Seed SourceMapGenerator).
Implicit Types (s : State) (astTree : ESTree.Program).

Lemma Agree_ret {A} (a : A) : Agree (ret a : M A) (ret a).
Proof. by intros s1 s2 Hs. Qed.

Lemma Agree_bind {A B} (m1 m2 : M A) (k1 k2 : A -> M B) :
  Agree m1 m2 -> (forall a, Agree (k1 a) (k2 a)) -> Agree (bind m1 k1) (bind m2 k2).
Proof.
  intros Hm Hk s1 s2 Hs. rewrite !bind_run.
  destruct (Hm s1 s2 Hs) as (Hout & Hstore & Hev). rewrite Hout.
  destruct (outcome (m2 s2)) as [a|e].
  - destruct (Hk a _ _ Hstore) as (Hout' & Hstore' & Hev').
    unfold agree, preceded. cbn [outcome final events].
    by rewrite !filter_app, Hev, Hev'.
  - done.
Qed.

(** Logging, whatever the logger, agrees with logging. *)
Lemma Agree_logging_bind {B} method1 method2 (record1 record2 : Event)
    (k1 k2 : unit -> M B) :
  isCollaboratorCall record1 = false ->
  isCollaboratorCall record2 = false ->
  Agree (k1 tt) (k2 tt) ->
  Agree (bind (logging method1 record1) k1) (bind (logging method2 record2) k2).
Proof.
  intros H1 H2 Hk s1 s2 [Hw Hh]. rewrite !bind_logging.
  match goal with
  | |- agree (preceded _ (k1 tt ?s1')) (preceded _ (k2 tt ?s2')) =>
      destruct (Hk s1' s2') as (Hout & Hstore & Hev); [by split|]
  end.
  unfold agree, preceded. cbn [outcome final events app].
  by rewrite !filter_cons_false.
Qed.

(** Sampling the clock, whatever the clock, agrees with sampling it. *)
Lemma Agree_dateNow_bind {B} (imports1 imports2 : Imports Exn World SourceMapGenerator)
    (k1 k2 : float -> M B) :
  (forall sample1 sample2, Agree (k1 sample1) (k2 sample2)) ->
  Agree (bind (dateNow imports1) k1) (bind (dateNow imports2) k2).
Proof.
  intros Hk s1 s2 [Hw Hh]. rewrite !bind_dateNow.
  match goal with
  | |- agree (preceded _ (k1 ?t1 ?s1')) (preceded _ (k2 ?t2 ?s2')) =>
      destruct (Hk t1 t2 s1' s2') as (Hout & Hstore & Hev); [by split|]
  end.
  unfold agree, preceded. cbn [outcome final events app].
  by rewrite !filter_cons_false.
Qed.

(** Reading the seed, whatever the generator, agrees with reading it. *)
Lemma Agree_getSeed_bind {B} (this1 this2 : Obfuscator) (k1 k2 : Seed -> M B) :
  (forall seed1 seed2, Agree (k1 seed1) (k2 seed2)) ->
  Agree (bind (randomGenerator_getSeed this1) k1) (bind (randomGenerator_getSeed this2) k2).
Proof.
  intros Hk s1 s2 Hs. rewrite !bind_run. unfold randomGenerator_getSeed.
  cbn [outcome final events].
  match goal with
  | |- agree (preceded _ (k1 ?t1 _)) (preceded _ (k2 ?t2 _)) =>
      destruct (Hk t1 t2 s1 s2 Hs) as (Hout & Hstore & Hev)
  end.
  unfold agree, preceded. cbn [outcome final events app].
  by rewrite !filter_cons_false.
Qed.

(** The same call to a collaborator, from the same store. *)
Lemma Agree_external {A} (call : External Exn World A) (record : Completion Exn A -> Event) :
  Agree (external call record : M A) (external call record).
Proof.
  intros s1 s2 [Hw Hh]. unfold agree, external, sameStore.
  cbn [outcome final events world heap]. by rewrite Hw, Hh.
Qed.

Lemma Agree_newObject props : Agree (newObject props : M ref) (newObject props).
Proof.
  intros s1 s2 [Hw Hh]. unfold agree, newObject, sameStore.
  cbn [outcome final events world heap]. by rewrite Hw, Hh.
Qed.

Lemma Agree_propertiesOf r : Agree (propertiesOf r : M Properties) (propertiesOf r).
Proof.
  intros s1 s2 [Hw Hh]. unfold agree, propertiesOf, sameStore.
  cbn [outcome final events world heap]. by rewrite Hw, Hh.
Qed.

Lemma Agree_setProperty r key v : Agree (setProperty r key v : M unit) (setProperty r key v).
Proof.
  intros s1 s2 [Hw Hh]. unfold agree, setProperty, sameStore.
  cbn [outcome final events world heap]. by rewrite Hw, Hh.
Qed.

Section TwoInstances.
Variables imports1 imports2 : Imports Exn World SourceMapGenerator.
Variables this1 this2 : Obfuscator.
Hypothesis same_parser : EsprimaFacade_parse imports1 = EsprimaFacade_parse imports2.
Hypothesis same_generator : escodegen_generate imports1 = escodegen_generate imports2.
Hypothesis same_toString :
  SourceMapGenerator_toString imports1 = SourceMapGenerator_toString imports2.
Hypothesis same_options : options this1 = options this2.
Hypothesis same_runner : transformersRunner this1 = transformersRunner this2.
Hypothesis same_corrector : sourceMapCorrector this1 = sourceMapCorrector this2.

Lemma Agree_runTransformationStage astTree st :
  Agree (runTransformationStage this1 astTree st) (runTransformationStage this2 astTree st).
Proof using same_runner.
  unfold runTransformationStage, logger_info.
  apply Agree_logging_bind; [done|done|]. rewrite same_runner. apply Agree_external.
Qed.

Lemma Agree_runStages stages astTree :
  Agree (runStages this1 stages astTree) (runStages this2 stages astTree).
Proof using same_runner.
  revert astTree. induction stages as [|st stages IH]; intros astTree.
  - apply Agree_ret.
  - apply Agree_bind; [apply Agree_runTransformationStage|done].
Qed.

Lemma Agree_transformAstTree astTree :
  Agree (transformAstTree this1 astTree) (transformAstTree this2 astTree).
Proof using same_runner same_options.
  intros s1 s2 Hs. destruct (isEmptyAstTree astTree) eqn:Hempty.
  - rewrite !transformAstTree_empty by done. by destruct Hs.
  - rewrite !transformAstTree_staged by done. rewrite same_options.
    by apply Agree_runStages.
Qed.

Lemma Agree_parseCode sourceCode :
  Agree (parseCode imports1 this1 sourceCode) (parseCode imports2 this2 sourceCode).
Proof using same_parser same_options.
  unfold parseCode. rewrite same_parser, same_options. apply Agree_external.
Qed.

Lemma Agree_generateCode sourceCode astTree :
  Agree (generateCode imports1 this1 sourceCode astTree)
        (generateCode imports2 this2 sourceCode astTree).
Proof using same_generator same_toString same_options.
  unfold generateCode. rewrite same_generator, same_options.
  apply Agree_bind; [apply Agree_propertiesOf|intros shared].
  apply Agree_bind; [apply Agree_newObject|intros escodegenParams].
  apply Agree_bind.
  { destruct (sourceMap (options this2)); [|apply Agree_ret].
    apply Agree_bind; [apply Agree_setProperty|intros _; apply Agree_setProperty]. }
  intros _.
  apply Agree_bind; [apply Agree_propertiesOf|intros copied].
  apply Agree_bind; [apply Agree_newObject|intros generateOptions].
  apply Agree_bind; [apply Agree_newObject|intros format].
  apply Agree_bind; [apply Agree_setProperty|intros _].
  apply Agree_bind; [|intros generatorOutput; unfold normalizedMap; rewrite same_toString;
                      apply Agree_ret].
  intros s1 s2 Hs. destruct (Hs) as [Hw Hh]. rewrite Hh. by apply Agree_external.
Qed.

Lemma Agree_getObfuscationResult generatorOutput :
  Agree (getObfuscationResult this1 generatorOutput)
        (getObfuscationResult this2 generatorOutput).
Proof using same_corrector.
  unfold getObfuscationResult. rewrite same_corrector. apply Agree_external.
Qed.

Lemma Agree_obfuscate sourceCode :
  Agree (obfuscate imports1 this1 sourceCode) (obfuscate imports2 this2 sourceCode).
Proof using All.
  unfold obfuscate, logger_info, logger_success.
  apply Agree_dateNow_bind. intros timeStart1 timeStart2.
  apply Agree_logging_bind; [done|done|].
  apply Agree_logging_bind; [done|done|].
  apply Agree_getSeed_bind. intros seed1 seed2.
  apply Agree_logging_bind; [done|done|].
  apply Agree_bind; [apply Agree_parseCode|intros astTree].
  apply Agree_bind; [apply Agree_transformAstTree|intros obfuscatedAstTree].
  apply Agree_bind; [apply Agree_generateCode|intros generatorOutput].
  apply Agree_dateNow_bind. intros timeEnd1 timeEnd2.
  apply Agree_logging_bind; [done|done|].
  apply Agree_getObfuscationResult.
Qed.
End TwoInstances.

(** Among loggers whose calls return: replace the logger, the random
    generator, the clock, the package version, the state of the sink and
    the number of clock samples taken so far by any others, and keep
    parser, transformers runner, generator, corrector, configuration and
    the collaborators' state: the run ends
    with the same result or the same thrown value, leaves the collaborators
    and the store in the same state, and has made the same calls to the
    collaborators in the same order. *)
Theorem result_is_independent_of_logger_seed_and_clock
    (imports : Imports Exn World SourceMapGenerator) (this : Obfuscator)
    (sourceCode : string) (s : State)
    (logger' : ILogger Sink Seed) (randomGenerator' : IRandomGenerator World Seed)
    (clock' : nat -> float) (version' : string) (sink' : Sink) (ticks' : nat) :
  let this' :=
    {| logger := logger';
       options := options this;
       randomGenerator := randomGenerator';
       sourceMapCorrector := sourceMapCorrector this;
       transformersRunner := transformersRunner this |} in
  let imports' :=
    {| Date_now := clock';
       packageJson_version := version';
       EsprimaFacade_parse := EsprimaFacade_parse imports;
       escodegen_generate := escodegen_generate imports;
       SourceMapGenerator_toString := SourceMapGenerator_toString imports |} in
  let s' := mkState (world s) sink' ticks' (heap s) in
  let r := obfuscate imports this sourceCode s in
  let r' := obfuscate imports' this' sourceCode s' in
  outcome r' = outcome r
  ∧ world (final r') = world (final r)
  ∧ heap (final r') = heap (final r)
  ∧ filter (fun e => isCollaboratorCall e) (events r')
    = filter (fun e => isCollaboratorCall e) (events r).
Proof.
  intros this' imports' s' r r'.
  destruct (Agree_obfuscate imports' imports this' this
              eq_refl eq_refl eq_refl eq_refl eq_refl eq_refl sourceCode s' s)
    as (Hout & [Hw Hh] & Hev); [by split|done].
Qed.

End Determinism.

Example other_logger_seed_and_clock_same_result :
  outcome (obfuscate
             {| Date_now := fun _ => 0%float;
                packageJson_version := "9.9.9";
                EsprimaFacade_parse := Demo.parse;
                escodegen_generate := Demo.generate;
                SourceMapGenerator_toString :=
                  SourceMapGenerator_toString Demo.imports |}
             {| logger := {| info _ _ := fun _ => []; success _ _ := fun _ => [];
                             warn _ _ := fun _ => [] |};
                options := Demo.withSourceMap;
                randomGenerator := Demo.seeded 7;
                sourceMapCorrector := Demo.corrector;
                transformersRunner := Demo.runner None |}
             "var x = 1;" Demo.start)
  = outcome (obfuscate Demo.imports (Demo.obfuscator Demo.withSourceMap None)
               "var x = 1;" Demo.start).
Proof. vm_compute. reflexivity. Qed.

(** ** A logger that throws *)

Section FallibleLogger.
Context {Exn World Sink Seed SourceMapGenerator : Type}.
Local Abbreviation State := (State World Sink).
Local Abbreviation M := (M Exn World Sink Seed SourceMapGenerator).
Local Abbreviation Run := (Run Exn World Sink Seed SourceMapGenerator).
Local Abbreviation Event := (Event Exn Seed SourceMapGenerator).
Local Abbreviation Obfuscator := (JavaScriptObfuscator Exn World Sink Seed SourceMapGenerator).
Local Abbreviation Logger := (WithFallibleLogger.Logger Exn Sink Seed).
Implicit Types (s : State) (astTree : ESTree.Program).
Variable this_logger : Logger.
Local Abbreviation sameOrCutShort := (WithFallibleLogger.sameOrCutShort this_logger).

Lemma sameOrCutShort_refl {A} (r : Run A) : sameOrCutShort r r.
Proof. by left. Qed.

Lemma sameOrCutShort_bind {A B} (m m0 : M A) (k k0 : A -> M B) :
  (forall s, sameOrCutShort (m s) (m0 s)) ->
  (forall a s, sameOrCutShort (k a s) (k0 a s)) ->
  forall s, sameOrCutShort (bind m k s) (bind m0 k0 s).
Proof.
  intros Hm Hk s. rewrite !bind_run.
  destruct (Hm s) as [->|(e & Hthrows & Hout & Hprefix)].
  - destruct (outcome (m0 s)) as [a|e]; [|by left].
    destruct (Hk a (final (m0 s))) as [->|(e & Hthrows & Hout & Hprefix)]; [by left|].
    right. exists e. unfold preceded. cbn [outcome final events].
    split_and!; [done|done|]. by apply prefix_app.
  - right. exists e. rewrite Hout. cbn [outcome final events].
    split_and!; [done|done|].
    destruct (outcome (m0 s)); unfold preceded; cbn [outcome final events]; [|done].
    by apply prefix_app_r.
Qed.

Lemma sameOrCutShort_logging
    (method : Sink -> Completion Exn unit * Sink) (record : Event) s :
  (forall e, (method (sink s)).1 = Throw e -> WithFallibleLogger.throws this_logger e) ->
  sameOrCutShort (WithFallibleLogger.logging method record s)
    (logging (fun k => (method k).2) record s).
Proof.
  intros Hthrows. unfold WithFallibleLogger.logging, logging.
  destruct (method (sink s)).1 as [[]|e] eqn:Hcall.
  - by left.
  - right. exists e. cbn [outcome final events]. split_and!; [by apply Hthrows|done|done].
Qed.

Lemma sameOrCutShort_info (this : Obfuscator) message value s :
  sameOrCutShort (WithFallibleLogger.logger_info this_logger message value s)
    (logger_info (WithFallibleLogger.settledInstance this this_logger) message value s).
Proof.
  apply (sameOrCutShort_logging (WithFallibleLogger.callInfo this_logger message value)).
  intros e He. exists message, value, (sink s). by left.
Qed.

Lemma sameOrCutShort_success (this : Obfuscator) message value s :
  sameOrCutShort (WithFallibleLogger.logger_success this_logger message value s)
    (logger_success (WithFallibleLogger.settledInstance this this_logger) message value s).
Proof.
  apply (sameOrCutShort_logging (WithFallibleLogger.callSuccess this_logger message value)).
  intros e He. exists message, value, (sink s). by right; left.
Qed.

Lemma sameOrCutShort_warn (this : Obfuscator) message value s :
  sameOrCutShort (WithFallibleLogger.logger_warn this_logger message value s)
    (logger_warn (WithFallibleLogger.settledInstance this this_logger) message value s).
Proof.
  apply (sameOrCutShort_logging (WithFallibleLogger.callWarn this_logger message value)).
  intros e He. exists message, value, (sink s). by right; right.
Qed.

Variable imports : Imports Exn World SourceMapGenerator.
Variable this : Obfuscator.
Local Abbreviation this0 := (WithFallibleLogger.settledInstance this this_logger).

Lemma sameOrCutShort_runTransformationStage astTree st s :
  sameOrCutShort (WithFallibleLogger.runTransformationStage this this_logger astTree st s)
    (runTransformationStage this0 astTree st s).
Proof.
  unfold WithFallibleLogger.runTransformationStage, runTransformationStage.
  revert s. apply sameOrCutShort_bind.
  - apply sameOrCutShort_info.
  - intros _ s. apply sameOrCutShort_refl.
Qed.

Lemma sameOrCutShort_transformAstTree astTree s :
  sameOrCutShort (WithFallibleLogger.transformAstTree this this_logger astTree s)
    (transformAstTree this0 astTree s).
Proof.
  unfold WithFallibleLogger.transformAstTree, transformAstTree.
  destruct (isEmptyAstTree astTree).
  - revert s. apply sameOrCutShort_bind; [apply sameOrCutShort_warn|].
    intros _ s. apply sameOrCutShort_refl.
  - revert s.
    apply sameOrCutShort_bind; [apply sameOrCutShort_runTransformationStage|intros t1].
    apply sameOrCutShort_bind.
    { cbn [WithFallibleLogger.settledInstance options].
      destruct (deadCodeInjection (options this));
        [apply sameOrCutShort_runTransformationStage|intros s; apply sameOrCutShort_refl]. }
    intros t2. apply sameOrCutShort_bind.
    { cbn [WithFallibleLogger.settledInstance options].
      destruct (controlFlowFlattening (options this));
        [apply sameOrCutShort_runTransformationStage|intros s; apply sameOrCutShort_refl]. }
    intros t3.
    apply sameOrCutShort_bind; [apply sameOrCutShort_runTransformationStage|intros t4].
    apply sameOrCutShort_bind; [apply sameOrCutShort_runTransformationStage|intros t5].
    apply sameOrCutShort_bind; [apply sameOrCutShort_runTransformationStage|intros t6].
    intros s. apply sameOrCutShort_refl.
Qed.

Lemma sameOrCutShort_obfuscate sourceCode s :
  sameOrCutShort (WithFallibleLogger.obfuscate imports this this_logger sourceCode s)
    (obfuscate imports this0 sourceCode s).
Proof.
  unfold WithFallibleLogger.obfuscate, obfuscate. revert s.
  apply sameOrCutShort_bind; [intros s; apply sameOrCutShort_refl|intros timeStart].
  apply sameOrCutShort_bind; [apply sameOrCutShort_info|intros _].
  apply sameOrCutShort_bind; [apply sameOrCutShort_info|intros _].
  apply sameOrCutShort_bind; [intros s; apply sameOrCutShort_refl|intros seed].
  apply sameOrCutShort_bind; [apply sameOrCutShort_info|intros _].
  apply sameOrCutShort_bind; [intros s; apply sameOrCutShort_refl|intros astTree].
  apply sameOrCutShort_bind; [apply sameOrCutShort_transformAstTree|intros obfuscatedAstTree].
  apply sameOrCutShort_bind; [intros s; apply sameOrCutShort_refl|intros generatorOutput].
  apply sameOrCutShort_bind; [intros s; apply sameOrCutShort_refl|intros timeEnd].
  apply sameOrCutShort_bind; [apply sameOrCutShort_success|intros _].
  intros s. apply sameOrCutShort_refl.
Qed.

Lemma returns_not_throws e :
  WithFallibleLogger.returns this_logger -> ¬ WithFallibleLogger.throws this_logger e.
Proof.
  intros Hreturns (message & value & k & Hthrows).
  destruct (Hreturns message value k) as (Hinfo & Hsuccess & Hwarn).
  destruct Hthrows as [H|[H|H]]; congruence.
Qed.

Lemma returns_obfuscate sourceCode s :
  WithFallibleLogger.returns this_logger ->
  WithFallibleLogger.obfuscate imports this this_logger sourceCode s
  = obfuscate imports this0 sourceCode s.
Proof.
  intros Hreturns.
  destruct (sameOrCutShort_obfuscate sourceCode s) as [?|(e & Hthrows & _)]; [done|].
  by destruct (returns_not_throws e).
Qed.

End FallibleLogger.

Section LoggerIndependence.
Context {Exn World Sink Seed SourceMapGenerator : Type}.
Local Abbreviation State := (State World Sink).
Local Abbreviation Logger := (WithFallibleLogger.Logger Exn Sink Seed).
Variable imports : Imports Exn World SourceMapGenerator.
Variable this : JavaScriptObfuscator Exn World Sink Seed SourceMapGenerator.
Variable this_logger : Logger.


End LoggerIndependence.



Example run_with_a_closed_logger :
  let r := WithFallibleLogger.obfuscate Demo.imports (Demo.obfuscator Demo.plain None)
             WithFallibleLogger.closed "var x = 1;" Demo.start in
  outcome r = Throw "stream closed"
  ∧ events r
    = [ EvDateNow 1000%float;
        EvInfo LoggingMessage.Version (Some (LogString "0.15.0")) ]
  ∧ world (final r) = 0.
Proof. vm_compute. done. Qed.

Example run_with_a_keeping_logger :
  WithFallibleLogger.obfuscate Demo.imports (Demo.obfuscator Demo.plain None)
    WithFallibleLogger.keeping "var x = 1;" Demo.start
  = obfuscate Demo.imports (Demo.obfuscator Demo.plain None) "var x = 1;" Demo.start.
Proof. vm_compute. reflexivity. Qed.

(** * Further properties *)

(** ** Stage calls *)

Section Announcements.
Context {Exn World Sink Seed SourceMapGenerator : Type}.
Variable imports : Imports Exn World SourceMapGenerator.
Variable this : JavaScriptObfuscator Exn World Sink Seed SourceMapGenerator.
Local Abbreviation State := (State World Sink).
Local Abbreviation Run := (Run Exn World Sink Seed SourceMapGenerator).
Local Abbreviation Event := (Event Exn Seed SourceMapGenerator).
Implicit Types (s : State) (astTree : ESTree.Program).

Lemma runStages_announced stages astTree s :
  events (runStages this stages astTree s)
  = announced (transformCalls (events (runStages this stages astTree s))).
Proof.
  revert astTree s. induction stages as [|st stages IH]; intros astTree s; [done|].
  rewrite runStages_cons, runTransformationStage_run. cbn zeta.
  cbn [outcome final events].
  destruct (transform _ _ _ _ _).1 as [astTree'|e] eqn:Hreturned; cbn [events].
  - rewrite transformCalls_app. cbn [app]. rewrite IH at 1.
    reflexivity.
  - reflexivity.
Qed.

Lemma announced_static_list (calls : list (@TransformCall Exn)) :
  Forall handsTheStaticList (announced calls : list Event).
Proof.
  induction calls as [|call calls IH]; [constructor|].
  unfold announced. cbn. by repeat constructor.
Qed.

(** X1.  In the transformation phase nothing happens but stage calls, and
    each comes as a pair: the stage is told to the logger, then the runner
    is called for that stage, also when the call then throws.  The
    degenerate case has the warning alone. *)
Theorem every_stage_is_announced_before_it_runs astTree s :
  let r := transformAstTree this astTree s in
  events r =
    if isEmptyAstTree astTree
    then [EvWarn LoggingMessage.EmptySourceCode None]
    else announced (transformCalls (events r)).
Proof.
  cbn zeta. destruct (isEmptyAstTree astTree) eqn:Hempty.
  - by rewrite transformAstTree_empty.
  - rewrite transformAstTree_staged by done. apply runStages_announced.
Qed.

Lemma transformAstTree_static_list astTree s :
  Forall handsTheStaticList (events (transformAstTree this astTree s)).
Proof.
  destruct (isEmptyAstTree astTree) eqn:Hempty.
  - rewrite transformAstTree_empty by done. by repeat constructor.
  - rewrite transformAstTree_staged, runStages_announced by done.
    apply announced_static_list.
Qed.

(** X2.  Whatever the stage and the configuration, a stage call hands the
    runner the static list of transformers, all twenty-one of them, none
    twice: the class selects stages, never transformers. *)
Theorem every_stage_call_is_handed_the_whole_registry sourceCode s :
  Forall handsTheStaticList (events (obfuscate imports this sourceCode s))
  ∧ length transformersList = 21
  ∧ NoDup transformersList.
Proof.
  split; [|split; [reflexivity|by apply (bool_decide_unpack _)]].
  destruct (obfuscate_scenario imports this sourceCode s)
    as [e' Hp|astTree e' Hp tr Htr|astTree t' e' Hp tr Htr gen Hgen
       |astTree t' go Hp tr Htr gen Hgen t0 t1 time corrected];
    cbn [events]; try subst tr; try subst gen;
    try match goal with
    | |- context [generateCode imports this sourceCode t' ?s'] =>
        destruct (generateCode_passes imports this sourceCode t' s')
          as (o & ret & ->)
    end;
    repeat first
      [ apply Forall_app; split
      | apply Forall_cons; split
      | apply transformAstTree_static_list
      | apply Forall_nil_2
      | exact I ];
    by repeat constructor.
Qed.

End Announcements.

(** ** The shape of a run *)

Section RunShape.
Context {Exn World Sink Seed SourceMapGenerator : Type}.
Variable imports : Imports Exn World SourceMapGenerator.
Variable this : JavaScriptObfuscator Exn World Sink Seed SourceMapGenerator.
Local Abbreviation State := (State World Sink).
Local Abbreviation Run := (Run Exn World Sink Seed SourceMapGenerator).
Local Abbreviation Event := (Event Exn Seed SourceMapGenerator).
Implicit Types (s : State) (astTree : ESTree.Program).

(** The events of a run, by the phase they come from: the prologue, the
    parser call, the transformation phase, and the ending, whose collaborator
    calls are described by [Ending]. *)
Lemma obfuscate_shape sourceCode s :
  let r := obfuscate imports this sourceCode s in
  exists phase ending,
    events r =
      prologue imports this s
      ++ EvParse sourceCode (parseOptions this) (parsed imports this sourceCode s).1
         :: phase ++ ending
    ∧ Forall (fun e => transformPhaseEvent e) phase
    ∧ Forall handsTheStaticList phase
    ∧ (forall e, (parsed imports this sourceCode s).1 = Throw e -> phase = [] ∧ ending = [])
    ∧ (forall astTree, (parsed imports this sourceCode s).1 = Normal astTree ->
         phase = events (transformAstTree this astTree (afterParse imports this sourceCode s))
         ∧ (ending ≠ [] ->
            exists obfuscatedAstTree,
              outcome (transformAstTree this astTree (afterParse imports this sourceCode s))
                = Normal obfuscatedAstTree))
    ∧ Ending (normalizedMap imports) (outcome r)
        (filter (fun e : Event => isCollaboratorCall e) ending)
    ∧ Forall (fun e => transformPhaseEvent e = false ∧ isParse e = false ∧ isSeedRead e = false
                       ∧ infoMessage e = None ∧ isWarn e = false) ending.
Proof.
  intros r. subst r.
  destruct (obfuscate_scenario imports this sourceCode s)
    as [e' Hp|astTree e' Hp tr Htr|astTree t' e' Hp tr Htr gen Hgen
       |astTree t' go Hp tr Htr gen Hgen t0 t1 time corrected];
    cbn [outcome events]; rewrite Hp.
  - exists [], []. repeat split; try done; try constructor.
  - exists (events tr), []. rewrite app_nil_r.
    split; [done|]. split; [apply transformAstTree_frame|].
    split; [apply transformAstTree_static_list|].
    split; [done|]. split; [|split; constructor].
    intros ? [= <-]. done.
  - subst gen.
    destruct (generateCode_frame imports this sourceCode t' (final tr))
      as [(o & ret & Hevents & Hout) _].
    rewrite Hout in Hgen. destruct ret as [raw|e'']; [done|]. injection Hgen as ->.
    exists (events tr), [EvGenerate t' o (Throw e')]. rewrite Hevents.
    split; [done|]. split; [apply transformAstTree_frame|].
    split; [apply transformAstTree_static_list|].
    split; [done|]. split; [intros ? [= <-]; eauto|].
    split; [by apply EndsInGeneration|]. by repeat constructor.
  - subst gen.
    destruct (generateCode_frame imports this sourceCode t' (final tr))
      as [(o & ret & Hevents & Hout) _].
    rewrite Hout in Hgen. destruct ret as [raw|e'']; [|done]. injection Hgen as <-.
    rewrite Hevents. cbn [app code map] in *.
    eexists (events tr), [_; _; _; _].
    split; [reflexivity|]. split; [apply transformAstTree_frame|].
    split; [apply transformAstTree_static_list|].
    split; [done|]. split; [intros ? [= <-]; eauto|].
    split; [apply EndsInCorrection|]. by repeat constructor.
Qed.

End RunShape.

(** ** The order of the calls *)

Section CallOrder.
Context {Exn World Sink Seed SourceMapGenerator : Type}.
Variable imports : Imports Exn World SourceMapGenerator.
Variable this : JavaScriptObfuscator Exn World Sink Seed SourceMapGenerator.
Local Abbreviation State := (State World Sink).
Local Abbreviation Run := (Run Exn World Sink Seed SourceMapGenerator).
Local Abbreviation Event := (Event Exn Seed SourceMapGenerator).
Implicit Types (s : State) (astTree : ESTree.Program).

Lemma phase_collaborator_calls (phase : list Event) :
  Forall (fun e => transformPhaseEvent e) phase ->
  Forall (fun e => isTransform e) (filter (fun e : Event => isCollaboratorCall e) phase).
Proof.
  intros Hphase. apply Forall_forall. intros e [Hcall Hin]%list_elem_of_filter.
  rewrite Forall_forall in Hphase. specialize (Hphase e Hin).
  by destruct e as [| [] [[]|] | | [] [] | | | | | ].
Qed.

Lemma transformCalls_collaborator_calls (evs : list Event) :
  transformCalls (filter (fun e : Event => isCollaboratorCall e) evs) = transformCalls evs.
Proof.
  induction evs as [|e evs IH]; [done|].
  rewrite filter_cons. destruct (decide (isCollaboratorCall e)) as [He|He].
  - destruct e; try done; unfold transformCalls in *; cbn; by rewrite IH.
  - destruct e; try done; exfalso; by apply He.
Qed.

(** X3.  The collaborators are called in one order: the parser first and
    once; then the transformers runner, stage after stage; then, only if
    every stage call returned, the generator; then, only if the generator
    returned, the corrector, on the code the generator returned and on its
    mapping as text.  What the corrector returns or throws is what the run
    returns or throws; a generator that throws ends the run with what it
    threw; a parser that throws is followed by no call at all. *)
Theorem collaborators_are_called_in_protocol_order sourceCode s :
  let r := obfuscate imports this sourceCode s in
  let parserReturned :=
    (EsprimaFacade_parse imports sourceCode
       {| attachComment := true; loc := sourceMap (options this) |} (world s)).1 in
  exists stageCalls ending,
    filter (fun e => isCollaboratorCall e) (events r)
      = EvParse sourceCode
          {| attachComment := true; loc := sourceMap (options this) |} parserReturned
        :: stageCalls ++ ending
    ∧ Forall (fun e => isTransform e) stageCalls
    ∧ transformCalls stageCalls = transformCalls (events r)
    ∧ Ending (normalizedMap imports) (outcome r) ending
    ∧ (forall e, parserReturned = Throw e -> stageCalls = [] ∧ ending = [])
    ∧ (ending ≠ [] ->
       Forall (fun call => exists astTree, returned call = Normal astTree)
         (transformCalls (events r))).
Proof.
  intros r parserReturned. subst r parserReturned.
  fold (parseOptions this). fold (parsed imports this sourceCode s).
  destruct (obfuscate_shape imports this sourceCode s)
    as (phase & ending & Hevents & Hphase & _ & Hthrow & Hnormal & Hending & Hrest).
  cbn zeta in Hevents. rewrite Hevents.
  exists (filter (fun e : Event => isCollaboratorCall e) phase),
         (filter (fun e : Event => isCollaboratorCall e) ending).
  assert (Hcalls : forall evs : list Event,
            Forall (fun e => transformPhaseEvent e = false ∧ isParse e = false
                             ∧ isSeedRead e = false ∧ infoMessage e = None
                             ∧ isWarn e = false) evs ->
            transformCalls evs = []).
  { intros evs Hevs. induction Hevs as [|e evs He _ IH]; [done|].
    destruct e; try done. by destruct He. }
  split.
  { rewrite filter_app, filter_cons, filter_app. reflexivity. }
  split; [by apply phase_collaborator_calls|].
  split.
  { rewrite transformCalls_app. change (transformCalls (prologue _ _ _)) with (@nil (@TransformCall Exn)).
    cbn [app]. change (transformCalls (EvParse ?a ?b ?c :: ?l)) with (transformCalls l).
    rewrite transformCalls_app, (Hcalls ending Hrest), app_nil_r.
    apply transformCalls_collaborator_calls. }
  split; [done|]. split.
  { intros e He. destruct (Hthrow e He) as [-> ->]. done. }
  intros Hne.
  destruct (parsed imports this sourceCode s).1 as [astTree|e] eqn:Hparsed.
  2: { destruct (Hthrow e eq_refl) as [_ ->]. done. }
  destruct (Hnormal astTree eq_refl) as [-> Hreturned].
  destruct Hreturned as [t' Ht'].
  { intros ->. done. }
  rewrite transformCalls_app. change (transformCalls (prologue _ _ _)) with (@nil (@TransformCall Exn)).
  cbn [app]. change (transformCalls (EvParse ?a ?b ?c :: ?l)) with (transformCalls l).
  rewrite transformCalls_app, (Hcalls ending Hrest), app_nil_r.
  destruct (transformAstTree_calls this astTree (afterParse imports this sourceCode s))
    as (Hch & Hlast & _).
  rewrite Ht' in Hlast. apply Forall_forall. intros call Hin.
  destruct (returned call) as [t|e] eqn:Hcall; [eauto|].
  destruct (chained_throw astTree _ call e Hch Hin Hcall) as [_ Hcontra].
  rewrite Hcontra in Hlast. done.
Qed.

End CallOrder.

(** ** How a run ends *)

Section Endings.
Context {Exn World Sink Seed SourceMapGenerator : Type}.
Variable imports : Imports Exn World SourceMapGenerator.
Variable this : JavaScriptObfuscator Exn World Sink Seed SourceMapGenerator.
Local Abbreviation State := (State World Sink).
Local Abbreviation Run := (Run Exn World Sink Seed SourceMapGenerator).
Local Abbreviation Event := (Event Exn Seed SourceMapGenerator).
Implicit Types (s : State) (astTree : ESTree.Program).

(** X4.  The completion is logged before the corrector is called: whenever
    the corrector is called, the success event is the event right before
    its call, the call is the last event of the run, and the run returns or
    throws what the corrector returned or threw.  So a run whose corrector
    throws has logged its completion and throws all the same. *)
Theorem completion_is_logged_before_the_corrector_is_called
    sourceCode s generatedCode generatedMap result :
  let r := obfuscate imports this sourceCode s in
  EvCorrect generatedCode generatedMap result ∈ events r ->
  outcome r = result
  ∧ exists before elapsed,
      events r =
        before
        ++ [ EvSuccess LoggingMessage.ObfuscationCompleted (Some (LogNumber elapsed));
             EvCorrect generatedCode generatedMap result ]
      ∧ filter (fun e => isSuccess e) before = []
      ∧ filter (fun e => isCorrect e) before = [].
Proof.
  intros r Hin. subst r.
  assert (Hfilter : EvCorrect generatedCode generatedMap result
                    ∈ filter (fun e : Event => isCorrect e)
                        (events (obfuscate imports this sourceCode s)))
    by (by apply list_elem_of_filter).
  destruct (obfuscate_ending imports this sourceCode s)
    as [(_ & _ & Hnone & _)
       |(astTree & o & fmt & h & w & raw & before & _ & _ & Hevents & Hsuccess & Hcorrect & _)].
  { rewrite Hnone in Hfilter. by apply elem_of_nil in Hfilter. }
  rewrite Hevents in Hfilter. rewrite filter_app, Hcorrect in Hfilter.
  apply list_elem_of_singleton in Hfilter. injection Hfilter as -> -> ->.
  split; [done|].
  eexists (before ++ [_; _]), _. split.
  { rewrite Hevents at 1. rewrite <- app_assoc. reflexivity. }
  by rewrite !filter_app, Hsuccess, Hcorrect.
Qed.

(** X5.  When the generator throws, the run throws the very same value; the
    corrector is not called, no completion is logged, and the clock is not
    sampled a second time. *)
Theorem generator_failure_propagates_unmodified sourceCode s astTree generateOptions e :
  let r := obfuscate imports this sourceCode s in
  EvGenerate astTree generateOptions (Throw e) ∈ events r ->
  outcome r = Throw e
  ∧ filter (fun e => isSuccess e) (events r) = []
  ∧ filter (fun e => isCorrect e) (events r) = []
  ∧ omap isClockSample (events r) = [Date_now imports (ticks s)].
Proof.
  intros r Hin. subst r.
  assert (Hfilter : EvGenerate astTree generateOptions (Throw e)
                    ∈ filter (fun e : Event => isGenerate e)
                        (events (obfuscate imports this sourceCode s)))
    by (by apply list_elem_of_filter).
  destruct (obfuscate_ending imports this sourceCode s)
    as [(_ & Hsuccess & Hcorrect & Hclock)
       |(t & o & fmt & h & w & raw & before & _ & _ & Hevents & _ & _ & Hgenerate & _)].
  2: { rewrite Hevents, filter_app, Hgenerate in Hfilter.
       apply list_elem_of_singleton in Hfilter. discriminate Hfilter. }
  split; [|done]. clear Hfilter.
  assert (Hcall : EvGenerate astTree generateOptions (Throw e)
                  ∈ filter (fun e : Event => isCollaboratorCall e)
                      (events (obfuscate imports this sourceCode s)))
    by (by apply list_elem_of_filter).
  destruct (obfuscate_shape imports this sourceCode s)
    as (phase & ending & Hevents & Hphase & _ & _ & _ & Hending & _).
  cbn zeta in Hevents. rewrite Hevents in Hcall.
  rewrite filter_app, filter_cons, filter_app in Hcall.
  change (filter _ (prologue imports this s)) with (@nil Event) in Hcall.
  cbn [app] in Hcall. rewrite decide_True in Hcall by done.
  apply elem_of_cons in Hcall as [Hcall|Hcall]; [discriminate Hcall|].
  apply elem_of_app in Hcall as [Hcall|Hcall].
  { pose proof (phase_collaborator_calls phase Hphase) as Htransform.
    rewrite Forall_forall in Htransform. by apply Htransform in Hcall. }
  destruct Hending as [|t o e' Hout|t o raw].
  - by apply elem_of_nil in Hcall.
  - apply list_elem_of_singleton in Hcall. by injection Hcall as -> -> ->.
  - apply elem_of_cons in Hcall as [Hcall|Hcall]; [discriminate Hcall|].
    apply list_elem_of_singleton in Hcall. discriminate Hcall.
Qed.

End Endings.

Lemma completion_is_logged_before_the_corrector_is_called_witness :
  outcome (obfuscate Demo.imports (Faulty.withFailingCorrector Demo.plain) "var x = 1;"
             Demo.start) = Throw "bad mapping".
Proof.
  refine (proj1 (completion_is_logged_before_the_corrector_is_called Demo.imports
                   (Faulty.withFailingCorrector Demo.plain) "var x = 1;" Demo.start
                   "VariableDeclaration;Preparing;Converting;Obfuscating;Finalizing"
                   (MapString "") (Throw "bad mapping") _)).
  vm_compute. repeat first [apply list_elem_of_here | apply list_elem_of_further].
Defined.

Example failing_corrector_after_logged_completion :
  let r := obfuscate Demo.imports (Faulty.withFailingCorrector Demo.plain) "var x = 1;"
             Demo.start in
  outcome r = Throw "bad mapping"
  ∧ filter (fun e => isSuccess e) (events r)
    = [ EvSuccess LoggingMessage.ObfuscationCompleted (Some (LogNumber 2.5%float)) ].
Proof. vm_compute. done. Qed.

Lemma generator_failure_propagates_unmodified_witness :
  outcome (obfuscate Faulty.withFailingGenerator (Demo.obfuscator Demo.plain None) ""
             Demo.start) = Throw "unsupported node".
Proof.
  refine (proj1 (generator_failure_propagates_unmodified Faulty.withFailingGenerator
                   (Demo.obfuscator Demo.plain None) "" Demo.start
                   Demo.emptyProgram 3%positive "unsupported node" _)).
  vm_compute. repeat first [apply list_elem_of_here | apply list_elem_of_further].
Defined.

(** ** What is logged *)

Section Logging.
Context {Exn World Sink Seed SourceMapGenerator : Type}.
Variable imports : Imports Exn World SourceMapGenerator.
Variable this : JavaScriptObfuscator Exn World Sink Seed SourceMapGenerator.
Local Abbreviation State := (State World Sink).
Local Abbreviation Run := (Run Exn World Sink Seed SourceMapGenerator).
Local Abbreviation Event := (Event Exn Seed SourceMapGenerator).
Implicit Types (s : State) (astTree : ESTree.Program).

Lemma phase_info_messages (phase : list Event) :
  Forall (fun e => transformPhaseEvent e) phase ->
  omap infoMessage phase
    = (fun _ => LoggingMessage.TransformationStage) <$> stageEntries phase
  ∧ filter (fun e : Event => isSeedRead e) phase = [].
Proof.
  intros Hphase. induction Hphase as [|e phase He _ [IHinfo IHseed]]; [done|].
  rewrite filter_cons.
  destruct e as [| [] [[]|] | | [] [] | | | | | ]; try done;
    unfold stageEntries in *; cbn; by rewrite ?IHinfo, ?IHseed.
Qed.

Lemma ending_info_messages (ending : list Event) :
  Forall (fun e => transformPhaseEvent e = false ∧ isParse e = false
                   ∧ isSeedRead e = false ∧ infoMessage e = None
                   ∧ isWarn e = false) ending ->
  omap infoMessage ending = []
  ∧ stageEntries ending = []
  ∧ filter (fun e : Event => isSeedRead e) ending = []
  ∧ filter (fun e : Event => isWarn e) ending = [].
Proof.
  intros Hending.
  induction Hending as [|e ending (_ & _ & Hseed & Hinfo & Hwarn) _ (IH1 & IH2 & IH3 & IH4)];
    [done|].
  rewrite !filter_cons_false by done. unfold stageEntries in *. cbn.
  rewrite Hinfo, IH1, IH2. repeat split; try done.
  destruct e as [| ? [[]|] | | | | | | | ]; try done.
Qed.

(** X6.  Every run, also one whose parser then throws, opens the same way:
    the clock is sampled, the version and the start are logged, the seed is
    read and logged, and the parser is called.  The seed is read exactly
    once in a run and the value logged is the value read.  After these
    three, [info] is called once per stage entered and for nothing else. *)
Theorem every_run_opens_with_version_start_and_seed sourceCode s :
  let r := obfuscate imports this sourceCode s in
  let seed := getSeed (randomGenerator this) (world s) in
  [ EvDateNow (Date_now imports (ticks s));
    EvInfo LoggingMessage.Version (Some (LogString (packageJson_version imports)));
    EvInfo LoggingMessage.ObfuscationStarted None;
    EvGetSeed seed;
    EvInfo LoggingMessage.RandomGeneratorSeed (Some (LogSeed seed));
    EvParse sourceCode {| attachComment := true; loc := sourceMap (options this) |}
      (EsprimaFacade_parse imports sourceCode
         {| attachComment := true; loc := sourceMap (options this) |} (world s)).1 ]
    `prefix_of` events r
  ∧ filter (fun e => isSeedRead e) (events r) = [EvGetSeed seed]
  ∧ omap infoMessage (events r)
    = [ LoggingMessage.Version; LoggingMessage.ObfuscationStarted;
        LoggingMessage.RandomGeneratorSeed ]
      ++ ((fun _ => LoggingMessage.TransformationStage) <$> stageEntries (events r)).
Proof.
  intros r seed. subst r seed.
  destruct (obfuscate_shape imports this sourceCode s)
    as (phase & ending & Hevents & Hphase & _ & _ & _ & _ & Hending).
  cbn zeta in Hevents. rewrite Hevents.
  destruct (phase_info_messages phase Hphase) as [Hinfo Hseed].
  destruct (ending_info_messages ending Hending) as (Hinfo' & Hentries' & Hseed' & _).
  split; [by eexists|].
  rewrite filter_app, filter_cons_false, filter_app, Hseed, Hseed' by done.
  split; [reflexivity|].
  rewrite omap_app, stageEntries_app.
  change (stageEntries (prologue imports this s)) with (@nil TransformationStage.t).
  cbn [app]. change (stageEntries (EvParse ?a ?b ?c :: ?l)) with (stageEntries l).
  change (omap infoMessage (EvParse ?a ?b ?c :: ?l)) with (omap infoMessage l).
  rewrite omap_app, stageEntries_app, Hinfo, Hinfo', Hentries', !app_nil_r. reflexivity.
Qed.

(** X7.  A run warns at most once, with [EmptySourceCode] and no payload,
    and it does so exactly when the parser returned a tree that
    [isEmptyAstTree] accepts; a parser that throws is followed by no
    warning. *)
Theorem warning_exactly_for_the_empty_program sourceCode s :
  let r := obfuscate imports this sourceCode s in
  filter (fun e => isWarn e) (events r) =
    match (EsprimaFacade_parse imports sourceCode
             {| attachComment := true; loc := sourceMap (options this) |} (world s)).1 with
    | Normal astTree =>
        if isEmptyAstTree astTree
        then [EvWarn LoggingMessage.EmptySourceCode None]
        else []
    | Throw _ => []
    end.
Proof.
  intros r. subst r.
  fold (parseOptions this). fold (parsed imports this sourceCode s).
  destruct (parsed imports this sourceCode s).1 as [astTree|e] eqn:Hparsed.
  - destruct (obfuscate_phases imports this sourceCode s astTree Hparsed)
      as (_ & _ & -> & _).
    destruct (isEmptyAstTree astTree) eqn:Hempty.
    + by rewrite transformAstTree_empty.
    + rewrite transformAstTree_staged by done.
      pose proof (runStages_spec this (stagePlan (options this)) astTree
                    (afterParse imports this sourceCode s)) as H.
      cbn zeta in H. tauto.
  - by rewrite (obfuscate_parse_throws imports this sourceCode s e Hparsed).
Qed.

End Logging.

(** ** Each stage once *)

Section LastCall.
Context {Exn : Type}.
Implicit Types (calls : list (@TransformCall Exn)) (astTree : ESTree.Program).

(** A chain that ends with a tree has it from its last call. *)
Lemma chained_last astTree calls call astTree' :
  chained astTree calls ->
  lastReturned astTree calls = Normal astTree' ->
  last calls = Some call ->
  returned call = Normal astTree'.
Proof.
  revert astTree. induction calls as [|c calls IH]; intros astTree Hch Hlast Hcall; [done|].
  cbn in Hch, Hlast. destruct Hch as [_ Hch].
  destruct (returned c) as [t|e] eqn:Hc; [|done].
  destruct calls as [|c' calls].
  - cbn in Hlast, Hcall. injection Hcall as <-. by rewrite Hc, Hlast.
  - by apply (IH t).
Qed.
End LastCall.

Section Once.
Context {Exn World Sink Seed SourceMapGenerator : Type}.
Variable imports : Imports Exn World SourceMapGenerator.
Variable this : JavaScriptObfuscator Exn World Sink Seed SourceMapGenerator.
Local Abbreviation State := (State World Sink).
Local Abbreviation Run := (Run Exn World Sink Seed SourceMapGenerator).
Local Abbreviation Event := (Event Exn Seed SourceMapGenerator).
Implicit Types (s : State) (astTree : ESTree.Program).

(** X8.  When the transformation of a tree that is not the canonical empty
    program returns, every stage of the plan was run exactly once: the four
    always-on stages and each gated stage whose flag is set, so four, five
    or six calls, Preparing first and Finalizing last, and the tree
    returned is the one the Finalizing call returned. *)
Theorem each_planned_stage_runs_exactly_once astTree s obfuscatedAstTree :
  ¬ canonicalEmpty astTree ->
  outcome (transformAstTree this astTree s) = Normal obfuscatedAstTree ->
  let calls := transformCalls (events (transformAstTree this astTree s)) in
  let stages := stage <$> calls in
  NoDup stages
  ∧ length stages
    = 4 + (if deadCodeInjection (options this) then 1 else 0)
        + (if controlFlowFlattening (options this) then 1 else 0)
  ∧ (forall st,
       st ∈ stages <->
       alwaysOn st = true
       ∨ (st = TransformationStage.DeadCodeInjection
          ∧ deadCodeInjection (options this) = true)
       ∨ (st = TransformationStage.ControlFlowFlattening
          ∧ controlFlowFlattening (options this) = true))
  ∧ head stages = Some TransformationStage.Preparing
  ∧ last stages = Some TransformationStage.Finalizing
  ∧ returned <$> last calls = Some (Normal obfuscatedAstTree).
Proof.
  intros Hc Hout calls stages.
  assert (He : isEmptyAstTree astTree = false).
  { destruct (isEmptyAstTree astTree) eqn:E; [|done].
    by apply isEmptyAstTree_canonical in E. }
  pose proof (runStages_spec this (stagePlan (options this)) astTree s) as H.
  rewrite <- transformAstTree_staged in H by done. cbn zeta in H.
  destruct H as (Hch & Hlast & _ & Hall & _).
  fold calls in Hch, Hlast, Hall. specialize (Hall _ Hout). fold stages in Hall.
  assert (Hreturned : returned <$> last calls = Some (Normal obfuscatedAstTree)).
  { rewrite Hout in Hlast. destruct (last calls) as [call|] eqn:Hcall.
    - cbn. f_equal. by apply (chained_last astTree calls).
    - apply last_None in Hcall. subst stages. rewrite Hcall in Hall.
      unfold stagePlan in Hall. discriminate Hall. }
  rewrite Hall. unfold stagePlan.
  destruct (deadCodeInjection (options this)), (controlFlowFlattening (options this));
    cbn [app length].
  all: split; [by apply (bool_decide_unpack _)|].
  all: split; [done|].
  all: split; [|done].
  all: intros st; rewrite !elem_of_cons, elem_of_nil; destruct st; cbn; naive_solver.
Qed.

End Once.

Lemma each_planned_stage_runs_exactly_once_witness :
  length (stage <$> transformCalls
            (events (transformAstTree (Demo.obfuscator Demo.withDeadCode None)
                       Demo.oneStatement Demo.start))) = 5.
Proof.
  refine (proj1 (proj2 (each_planned_stage_runs_exactly_once
            (Demo.obfuscator Demo.withDeadCode None) Demo.oneStatement Demo.start
            (ESTree.mkNode "Program"
               [ ESTree.mkNode "VariableDeclaration" [] None;
                 ESTree.mkNode "Preparing" [] None;
                 ESTree.mkNode "DeadCodeInjection" [] None;
                 ESTree.mkNode "Converting" [] None;
                 ESTree.mkNode "Obfuscating" [] None;
                 ESTree.mkNode "Finalizing" [] None ] None)
            _ _))).
  - intros (_ & Hbody & _). discriminate Hbody.
  - vm_compute. reflexivity.
Defined.

(** ** The options of the generator *)

Section GeneratorOptions.
Context {Exn World Sink Seed SourceMapGenerator : Type}.
Variable imports : Imports Exn World SourceMapGenerator.
Variable this : JavaScriptObfuscator Exn World Sink Seed SourceMapGenerator.
Local Abbreviation State := (State World Sink).
Local Abbreviation Run := (Run Exn World Sink Seed SourceMapGenerator).
Local Abbreviation Event := (Event Exn Seed SourceMapGenerator).
Implicit Types (s : State) (astTree : ESTree.Program).

(** X9.  What the generator is handed in a run, when the static parameters
    are as the class created them: a new object with [comment],
    [sourceMapWithCode] and [verbatim] as in the static parameters, with
    [sourceMap] set to the name "sourceMap" and [sourceContent] set to the
    source text given to [obfuscate] exactly when the [sourceMap] flag is
    set (and neither property otherwise), and with [format] a new object
    whose only property is [compact], the [compact] flag. *)
Theorem generator_options_of_a_run sourceCode s astTree generateOptions returned :
  heap s !! static_escodegenParams = Some escodegenParams_initializer ->
  let r := obfuscate imports this sourceCode s in
  EvGenerate astTree generateOptions returned ∈ events r ->
  let handed := deref (heap (final r)) generateOptions in
  (exists w, returned
             = (escodegen_generate imports astTree generateOptions (heap (final r)) w).1)
  ∧ handed !! "comment" = Some (JsBoolean true)
  ∧ handed !! "verbatim" = Some (JsString "x-verbatim-property")
  ∧ handed !! "sourceMapWithCode" = Some (JsBoolean true)
  ∧ handed !! "sourceMap"
    = (if sourceMap (options this) then Some (JsString "sourceMap") else None)
  ∧ handed !! "sourceContent"
    = (if sourceMap (options this) then Some (JsString sourceCode) else None)
  ∧ (exists format,
       handed !! "format" = Some (JsObject format)
       ∧ format ∉ dom (heap s)
       ∧ deref (heap (final r)) format
         = {[ "compact" := JsBoolean (compact (options this)) ]})
  ∧ generateOptions ∉ dom (heap s).
Proof.
  intros Hstatic r Hin handed. subst handed r.
  assert (Hfilter : EvGenerate astTree generateOptions returned
                    ∈ filter (fun e : Event => isGenerate e)
                        (events (obfuscate imports this sourceCode s)))
    by (by apply list_elem_of_filter).
  assert (Hshared : deref (heap s) static_escodegenParams = escodegenParams_initializer)
    by (unfold deref; by rewrite Hstatic).
  assert (Hgoal : exists w format,
            returned = (escodegen_generate imports astTree generateOptions
                          (heap (final (obfuscate imports this sourceCode s))) w).1
            ∧ deref (heap (final (obfuscate imports this sourceCode s))) generateOptions
              = <["format" := JsObject format]>
                  (localProperties this sourceCode escodegenParams_initializer)
            ∧ deref (heap (final (obfuscate imports this sourceCode s))) format
              = {[ "compact" := JsBoolean (compact (options this)) ]}
            ∧ format ∉ dom (heap s)
            ∧ generateOptions ∉ dom (heap s)).
  { destruct (obfuscate_scenario imports this sourceCode s)
      as [e' Hp|t e' Hp tr Htr|t t' e' Hp tr Htr gen Hgen
         |t t' go Hp tr Htr gen Hgen t0 t1 time corrected];
      cbn [events final heap] in Hfilter |- *.
    - rewrite filter_app in Hfilter. by apply elem_of_nil in Hfilter.
    - subst tr. rewrite filter_app, filter_cons_false, phase_filter_generate in Hfilter by done.
      by apply elem_of_nil in Hfilter.
    - destruct (transformAstTree_frame this t (afterParse imports this sourceCode s))
        as (_ & Hheap & _). fold tr in Hheap.
      destruct (generateCode_run imports this sourceCode t' (final tr))
        as (r1 & o & fmt & h & Hrun & _ & Ho & Hfmt & _ & _ & Hopts & Hformat).
      cbn zeta in Hrun. fold gen in Hrun. rewrite Hrun in Hfilter |- *.
      cbn [events final heap] in Hfilter |- *. subst tr.
      rewrite filter_app, filter_cons_false, filter_app, phase_filter_generate in Hfilter
        by done.
      apply list_elem_of_singleton in Hfilter. injection Hfilter as -> -> ->.
      rewrite Hheap in *. cbn [afterParse heap] in *. rewrite Hshared in Hopts.
      eauto 10.
    - destruct (transformAstTree_frame this t (afterParse imports this sourceCode s))
        as (_ & Hheap & _). fold tr in Hheap.
      destruct (generateCode_run imports this sourceCode t' (final tr))
        as (r1 & o & fmt & h & Hrun & _ & Ho & Hfmt & _ & _ & Hopts & Hformat).
      cbn zeta in Hrun. fold gen in Hrun. rewrite Hrun in Hfilter |- *.
      cbn [events final heap] in Hfilter |- *. subst tr.
      rewrite filter_app, filter_cons_false, !filter_app, phase_filter_generate in Hfilter
        by done.
      apply list_elem_of_singleton in Hfilter. injection Hfilter as -> -> ->.
      rewrite Hheap in *. cbn [afterParse heap] in *. rewrite Hshared in Hopts.
      eauto 10. }
  destruct Hgoal as (w & format & Hreturned & Hopts & Hformat & Hfresh & Hfresh').
  rewrite Hopts. unfold localProperties.
  split; [eauto|].
  destruct (sourceMap (options this));
    rewrite ?lookup_insert_eq, ?(lookup_insert_ne (M := gmap string)) by done;
    repeat split; try reflexivity; eauto.
Qed.

End GeneratorOptions.

Lemma generator_options_of_a_run_witness :
  deref (heap (final (obfuscate Demo.imports (Demo.obfuscator Demo.withSourceMap None)
                        "var x = 1;" Demo.start))) 3%positive !! "sourceContent"
  = Some (JsString "var x = 1;").
Proof.
  refine (proj1 (proj2 (proj2 (proj2 (proj2 (proj2
            (generator_options_of_a_run Demo.imports
               (Demo.obfuscator Demo.withSourceMap None) "var x = 1;" Demo.start
               (ESTree.mkNode "Program"
                  [ ESTree.mkNode "VariableDeclaration" [] None;
                    ESTree.mkNode "Preparing" [] None;
                    ESTree.mkNode "DeadCodeInjection" [] None;
                    ESTree.mkNode "ControlFlowFlattening" [] None;
                    ESTree.mkNode "Converting" [] None;
                    ESTree.mkNode "Obfuscating" [] None;
                    ESTree.mkNode "Finalizing" [] None ] None)
               3%positive
               (Normal
                  {| code :=
                       "VariableDeclaration;Preparing;DeadCodeInjection;ControlFlowFlattening;Converting;Obfuscating;Finalizing";
                     map := MapObject "AAAA" |})
               eq_refl _))))))).
  vm_compute. repeat first [apply list_elem_of_here | apply list_elem_of_further].
Defined.

(** ** The mapping as text *)

Section Normalization.
Context {Exn World Sink Seed SourceMapGenerator : Type}.
Variable imports : Imports Exn World SourceMapGenerator.
Variable this : JavaScriptObfuscator Exn World Sink Seed SourceMapGenerator.
Local Abbreviation State := (State World Sink).
Local Abbreviation Run := (Run Exn World Sink Seed SourceMapGenerator).
Local Abbreviation Event := (Event Exn Seed SourceMapGenerator).
Implicit Types (s : State) (astTree : ESTree.Program).

(** X10.  Line 198 applied to its own result changes nothing, a mapping
    that is already a string is kept as it is, and the text is empty
    exactly when the generator gave no mapping ([undefined] or [null]), an
    empty string, or a source-map object whose [toString] is empty. *)
Theorem mapping_normalization_is_idempotent (generatedMap : MapValue SourceMapGenerator) :
  normalizedMap imports (normalizedMap imports generatedMap)
    = normalizedMap imports generatedMap
  ∧ (forall text, normalizedMap imports (MapString text) = MapString text)
  ∧ (normalizedMap imports generatedMap = MapString "" <->
     generatedMap = MapUndefined ∨ generatedMap = MapNull ∨ generatedMap = MapString ""
     ∨ exists g, generatedMap = MapObject g ∧ SourceMapGenerator_toString imports g = "").
Proof.
  assert (Htext : forall text, normalizedMap imports (MapString text) = MapString text)
    by (by intros [|]).
  split; [|split; [done|]].
  - destruct generatedMap as [| |g|text]; try done; rewrite ?Htext; [apply Htext|done].
  - destruct generatedMap as [| |g|text].
    + naive_solver.
    + naive_solver.
    + cbn [normalizedMap].
      split; [intros [= Hg]; eauto 10|]. intros [|[|[|(g' & [= <-] & ->)]]]; done.
    + rewrite Htext. naive_solver.
Qed.

End Normalization.

(** ** Which option goes where *)

Section Gating.
Context {Exn World Sink Seed SourceMapGenerator : Type}.
Local Abbreviation State := (State World Sink).
Local Abbreviation Obfuscator := (JavaScriptObfuscator Exn World Sink Seed SourceMapGenerator).
Implicit Types (s : State) (astTree : ESTree.Program).

Lemma runStages_same_runner (this this' : Obfuscator) stages astTree s :
  logger this' = logger this ->
  transformersRunner this' = transformersRunner this ->
  runStages this' stages astTree s = runStages this stages astTree s.
Proof.
  intros Hlogger Hrunner. revert astTree s.
  induction stages as [|st stages IH]; intros astTree s; [done|].
  rewrite !runStages_cons, !runTransformationStage_run, Hlogger, Hrunner. cbn zeta.
  cbn [outcome final events].
  destruct (transform _ _ _ _ _).1; [|done]. by rewrite IH.
Qed.

(** X11.  The options are consumed apart.  Which stages run depends on the
    two gate flags only: changing [compact] and [sourceMap] leaves the
    transformation phase as it is.  The parser call and the generation
    depend on [sourceMap] and [compact] only: changing the two gate flags
    leaves both as they are. *)
Theorem options_are_consumed_apart
    (imports : Imports Exn World SourceMapGenerator) (this : Obfuscator)
    (sourceCode : string) astTree s (flag flag' : bool) :
  let withOutput :=
    {| logger := logger this;
       options := {| compact := flag;
                     controlFlowFlattening := controlFlowFlattening (options this);
                     deadCodeInjection := deadCodeInjection (options this);
                     sourceMap := flag' |};
       randomGenerator := randomGenerator this;
       sourceMapCorrector := sourceMapCorrector this;
       transformersRunner := transformersRunner this |} in
  let withGates :=
    {| logger := logger this;
       options := {| compact := compact (options this);
                     controlFlowFlattening := flag;
                     deadCodeInjection := flag';
                     sourceMap := sourceMap (options this) |};
       randomGenerator := randomGenerator this;
       sourceMapCorrector := sourceMapCorrector this;
       transformersRunner := transformersRunner this |} in
  transformAstTree withOutput astTree s = transformAstTree this astTree s
  ∧ parseCode imports withGates sourceCode s = parseCode imports this sourceCode s
  ∧ generateCode imports withGates sourceCode astTree s
    = generateCode imports this sourceCode astTree s.
Proof.
  intros withOutput withGates. split; [|split; reflexivity].
  destruct (isEmptyAstTree astTree) eqn:Hempty.
  - by rewrite !transformAstTree_empty.
  - rewrite !transformAstTree_staged by done. by apply runStages_same_runner.
Qed.
End Gating.

(** ** Runs that return *)

Section Success.
Context {Exn World Sink Seed SourceMapGenerator : Type}.
Variable imports : Imports Exn World SourceMapGenerator.
Variable this : JavaScriptObfuscator Exn World Sink Seed SourceMapGenerator.
Local Abbreviation State := (State World Sink).
Local Abbreviation Run := (Run Exn World Sink Seed SourceMapGenerator).
Local Abbreviation Event := (Event Exn Seed SourceMapGenerator).
Implicit Types (s : State) (astTree : ESTree.Program).

(** X12.  A run returns a result only when every call returned: the parser
    returned a tree, every stage call returned (all stages of the plan, or
    none for the degenerate tree), the generator returned on the tree the
    last stage returned, and the run ends with the generator call, the
    second clock sample, the completion event and the corrector call that
    returned the result. *)
Theorem a_result_requires_every_call_to_return sourceCode s result :
  let r := obfuscate imports this sourceCode s in
  outcome r = Normal result ->
  exists astTree obfuscatedAstTree generateOptions raw before,
    (EsprimaFacade_parse imports sourceCode
       {| attachComment := true; loc := sourceMap (options this) |} (world s)).1
      = Normal astTree
    ∧ Forall (fun call => exists returnedTree, returned call = Normal returnedTree)
        (transformCalls (events r))
    ∧ stage <$> transformCalls (events r)
      = (if isEmptyAstTree astTree then [] else stagePlan (options this))
    ∧ lastReturned astTree (transformCalls (events r)) = Normal obfuscatedAstTree
    ∧ events r =
        before
        ++ [ EvGenerate obfuscatedAstTree generateOptions (Normal raw);
             EvDateNow (Date_now imports (S (ticks s)));
             EvSuccess LoggingMessage.ObfuscationCompleted
               (Some (LogNumber ((Date_now imports (S (ticks s))
                                  - Date_now imports (ticks s)) / 1000)%float));
             EvCorrect (code raw) (normalizedMap imports (map raw)) (Normal result) ].
Proof.
  intros r Hresult. subst r.
  fold (parseOptions this). fold (parsed imports this sourceCode s).
  destruct (parsed imports this sourceCode s).1 as [astTree|e] eqn:Hparsed.
  2: { by rewrite (obfuscate_parse_throws imports this sourceCode s e Hparsed) in Hresult. }
  destruct (obfuscate_phases imports this sourceCode s astTree Hparsed)
    as (Hcalls & _ & _ & Hgenerate).
  destruct (transformAstTree_calls this astTree (afterParse imports this sourceCode s))
    as (Hch & Hlast & _).
  destruct (outcome (transformAstTree this astTree (afterParse imports this sourceCode s)))
    as [t'|e] eqn:Htransformed.
  2: { destruct Hgenerate as [Hthrow _]. by rewrite Hthrow in Hresult. }
  destruct Hgenerate as (o' & ret' & Hgenerate).
  destruct (obfuscate_ending imports this sourceCode s)
    as [([e He] & _)
       |(t & o & fmt & h & w & raw & before & _ & _ & Hevents & _ & _ & Hnone & _)].
  { by rewrite He in Hresult. }
  rewrite Hevents, filter_app, Hnone in Hgenerate. injection Hgenerate as -> _ _.
  rewrite Hresult in Hevents.
  exists astTree, t', o, raw, before. rewrite Hcalls.
  split; [done|]. split; [|split; [|done]].
  - apply Forall_forall. intros call Hin.
    destruct (returned call) as [returnedTree|e] eqn:Hcall; [eauto|].
    destruct (chained_throw astTree _ call e Hch Hin Hcall) as [_ Hcontra].
    rewrite Hcontra in Hlast. done.
  - destruct (isEmptyAstTree astTree) eqn:Hempty.
    + by rewrite transformAstTree_empty.
    + pose proof (runStages_spec this (stagePlan (options this)) astTree
                    (afterParse imports this sourceCode s)) as H.
      rewrite <- transformAstTree_staged in H by done. cbn zeta in H.
      destruct H as (_ & _ & _ & Hall & _). by apply (Hall t').
Qed.

End Success.

Lemma a_result_requires_every_call_to_return_witness :
  exists astTree,
    (Demo.parse "var x = 1;" {| attachComment := true; loc := false |} 0).1
      = Normal astTree.
Proof.
  destruct (a_result_requires_every_call_to_return Demo.imports
              (Demo.obfuscator Demo.plain None) "var x = 1;" Demo.start
              {| obfuscatedCode :=
                   "VariableDeclaration;Preparing;Converting;Obfuscating;Finalizing";
                 sourceMapText := "" |} eq_refl)
    as (astTree & _ & _ & _ & _ & Hparsed & _).
  exists astTree. exact Hparsed.
Defined.
